(** * Water-quality pipeline: reading parser, zone resolver, submission
      guard, compliance check and record deletion

    A shallow embedding of the Streamlit pages [2_Manual_Input.py],
    [Home_page.py] and [3_OrgUseData_Dashboard.py].

    Conventions of the model.
    - A Python [float] is an exact rational of [Q]; the values read by
      [float] from a token are kept in lowest terms ([Qred]), so that equal
      numbers are equal terms.  Python keeps the binary64 number nearest
      to that rational; rounding is outside the model.
    - A float read back from the data file is a [pyfloat]: a rational, an
      infinity, or NaN, which stands for a cell without a value.
    - A Python [str] handed to the regular-expression engine is a list of
      [ascii] characters; the character classes and the case folding are
      those of Python's [re] on code points below 128, and the statements
      that depend on them are made for texts of ASCII characters.
    - A Python [dict] with string keys is a [gmap string _]; where the
      iteration order matters (the pattern table, the fallback table, the
      band table) it is an association list in insertion order.
    - An exception is a value [Raise e] of the [result] type; the
      exception of [st.progress], which stops the loop of the home page,
      is the ending of that loop.
    - What a page shows ([st.warning], [st.success], ...) is a list of
      events.  The content of the data file is the frame it holds; the
      text of the file, and what reading it back does to it, is described
      for the Zipcode column.
    - The libraries the pages call are parameters where their answer is
      not determined by the page: the network ([requests.get]), the
      geodesic distance of geopy, the value a widget hands back, the
      values [st.progress] accepts. *)

From Stdlib Require Import QArith Qreduction ZArith Ascii String List Lia.
From stdpp Require Import gmap strings list fin_maps pretty.

Local Open Scope string_scope.
Local Open Scope list_scope.

(** ** Python values: exceptions and results *)

Module Py.

(** The subclasses of [requests.RequestException] the resolver can meet:
    no connection, a timeout, an error status turned into an exception by
    [raise_for_status], and a body that is not JSON. *)
Inductive request_exception :=
  | ConnectionError
  | Timeout
  | HTTPError
  | JSONDecodeError.

Inductive exn :=
  | ValueError
  | TypeError
  | KeyError
  | RequestException (e : request_exception).

Inductive result (A : Type) :=
  | Ok (a : A)
  | Raise (e : exn).

Arguments Ok {A} a.
Arguments Raise {A} e.

Definition bind {A B} (r : result A) (k : A -> result B) : result B :=
  match r with
  | Ok a => k a
  | Raise e => Raise e
  end.

(** [x < y] on floats. *)
Definition Qltb (x y : Q) : bool := negb (Qle_bool y x).

(** A float read from the data file: a number, an infinity, or NaN, which
    is what pandas puts in a cell without a value. *)
Inductive pyfloat :=
  | Finite (q : Q)
  | PosInf
  | NegInf
  | NaN.

(** [x <= y] and [x < y]: every comparison with NaN is false. *)
Definition fle (x y : pyfloat) : bool :=
  match x, y with
  | NaN, _ | _, NaN => false
  | Finite a, Finite b => Qle_bool a b
  | NegInf, _ | _, PosInf => true
  | _, _ => false
  end.

Definition flt (x y : pyfloat) : bool :=
  match x, y with
  | NaN, _ | _, NaN => false
  | Finite a, Finite b => Qltb a b
  | NegInf, NegInf | PosInf, _ | _, NegInf => false
  | _, _ => true
  end.

(** [x / y].  A division by zero is not described: the pages divide by a
    number that is positive (its value here is NaN). *)
Definition fdiv (x y : pyfloat) : pyfloat :=
  match x, y with
  | NaN, _ | _, NaN => NaN
  | Finite a, Finite b => if Qeq_bool b 0 then NaN else Finite (a / b)
  | Finite _, _ => Finite 0
  | PosInf, Finite b =>
      if Qeq_bool b 0 then NaN else if Qltb 0 b then PosInf else NegInf
  | NegInf, Finite b =>
      if Qeq_bool b 0 then NaN else if Qltb 0 b then NegInf else PosInf
  | _, _ => NaN
  end.

(** Python's [max(a, b)] and [min(a, b)]: the first argument is kept
    unless the second is strictly larger (smaller). *)
Definition py_max (a b : pyfloat) : pyfloat := if flt a b then b else a.
Definition py_min (a b : pyfloat) : pyfloat := if flt b a then b else a.

End Py.

Import Py.

#[global] Instance result_ret : MRet result := fun A a => Ok a.
#[global] Instance result_bind : MBind result := fun A B k r => bind r k.

(** ** The fragment of [re] used by the parser *)

Module Re.

Definition code (c : ascii) : nat := nat_of_ascii c.

(** [\d] on code points below 128. *)
Definition is_digit (c : ascii) : bool :=
  (48 <=? code c)%nat && (code c <=? 57)%nat.

(** [\s] on code points below 128: tab, line feed, vertical tab, form
    feed, carriage return, the four separators 28..31, and the space. *)
Definition is_space (c : ascii) : bool :=
  ((9 <=? code c)%nat && (code c <=? 13)%nat)
  || ((28 <=? code c)%nat && (code c <=? 32)%nat).

Definition is_upper (c : ascii) : bool :=
  (65 <=? code c)%nat && (code c <=? 90)%nat.

Definition lower (c : ascii) : ascii :=
  if is_upper c then ascii_of_nat (code c + 32) else c.

(** Comparison of two characters under [re.IGNORECASE]. *)
Definition eq_ignorecase (a b : ascii) : bool :=
  Ascii.eqb (lower a) (lower b).

(** The two bracket classes of the patterns. *)
Inductive cclass :=
  | ColonSpace   (* [:\s] *)
  | DigitDot.    (* [\d.] *)

Definition in_class (k : cclass) (c : ascii) : bool :=
  match k with
  | ColonSpace => Ascii.eqb c ":" || is_space c
  | DigitDot => is_digit c || Ascii.eqb c "."
  end.

Arguments in_class : simpl never.

(** Pattern items: a literal character, a greedy starred class, and a
    capturing group around a greedy class repeated at least once. *)
Inductive item :=
  | Lit (c : ascii)
  | Star (k : cclass)
  | GroupPlus (k : cclass).

Definition pattern := list item.

Definition groups := list (list ascii).

(** Greedy prefix of class [k] read by a capturing group, then the rest of
    the pattern [rest]; shorter prefixes are tried when [rest] fails. *)
Fixpoint plus_here (k : cclass) (rest : list ascii -> option groups)
    (s : list ascii) : option (list ascii * groups) :=
  match s with
  | a :: s' =>
      if in_class k a then
        match plus_here k rest s' with
        | Some (g, gs) => Some (a :: g, gs)
        | None =>
            match rest s' with
            | Some gs => Some ([a], gs)
            | None => None
            end
        end
      else None
  | [] => None
  end.

(** Greedy starred class followed by [rest], with backtracking. *)
Fixpoint star_here (k : cclass) (rest : list ascii -> option groups)
    (s : list ascii) : option groups :=
  match s with
  | a :: s' =>
      if in_class k a then
        match star_here k rest s' with
        | Some gs => Some gs
        | None => rest s
        end
      else rest s
  | [] => rest s
  end.

(** Anchored match of a pattern at the head of [s]: the captured groups,
    or [None] when the pattern does not match there. *)
Fixpoint match_here (p : pattern) : list ascii -> option groups :=
  match p with
  | [] => fun _ => Some []
  | Lit c :: p' => fun s =>
      match s with
      | a :: s' => if eq_ignorecase c a then match_here p' s' else None
      | [] => None
      end
  | Star k :: p' => star_here k (match_here p')
  | GroupPlus k :: p' => fun s =>
      match plus_here k (match_here p') s with
      | Some (g, gs) => Some (g :: gs)
      | None => None
      end
  end.

(** [re.search]: the match at the leftmost position that has one. *)
Fixpoint search (p : pattern) (s : list ascii) : option groups :=
  match match_here p s with
  | Some gs => Some gs
  | None =>
      match s with
      | [] => None
      | _ :: s' => search p s'
      end
  end.

(** [match.group(1)]. *)
Definition group1 (gs : groups) : list ascii := hd [] gs.

(** The pattern [label[:\s]*([\d.]+)]. *)
Definition label_number (label : string) : pattern :=
  map Lit (list_ascii_of_string label) ++ [Star ColonSpace; GroupPlus DigitDot].

End Re.

(** ** [float] on the tokens the patterns capture *)

Module Float.

Definition digit_val (c : ascii) : Z := Z.of_nat (Re.code c) - 48.

Definition digits_val (s : list ascii) : Z :=
  fold_left (fun acc c => 10 * acc + digit_val c)%Z s 0%Z.

Fixpoint span_digits (s : list ascii) : list ascii * list ascii :=
  match s with
  | a :: s' =>
      if Re.is_digit a then
        let '(ds, r) := span_digits s' in (a :: ds, r)
      else ([], s)
  | [] => ([], [])
  end.

Definition is_nil {A} (l : list A) : bool :=
  match l with [] => true | _ => false end.

(** Python's [float(s)] for a token [s] over digits and dots: the token is
    a float literal when it has at least one digit and at most one dot;
    any other token raises [ValueError]. *)
Definition float (s : list ascii) : result Q :=
  let '(ip, r) := span_digits s in
  match r with
  | [] =>
      if is_nil ip then Raise ValueError
      else Ok (Qred (inject_Z (digits_val ip)))
  | a :: fp =>
      if Ascii.eqb a "." && forallb Re.is_digit fp
         && negb (is_nil ip && is_nil fp)
      then
        let scale := (10 ^ Z.of_nat (length fp))%Z in
        Ok (Qred (Qmake (digits_val ip * scale + digits_val fp)
                        (Z.to_pos scale)))
      else Raise ValueError
  end.

End Float.

(** ** [parse_extracted_text] *)

Module ReadingParser.

Import Re.

(** The pattern table, in insertion order. *)
Definition patterns : list (string * pattern) :=
  [ ("pH", label_number "pH");
    ("Chlorine (mg/L)", label_number "Chlorine");
    ("Hardness (mg/L as CaCO3)", label_number "Hardness");
    ("Nitrates (mg/L)", label_number "Nitrates");
    ("Lead (µg/L)", label_number "Lead") ].

(** The body of the loop over [patterns.items()]. *)
Fixpoint parse_loop (ps : list (string * pattern)) (text : list ascii)
    (readings : gmap string Q) : result (gmap string Q) :=
  match ps with
  | [] => Ok readings
  | (param, pat) :: ps' =>
      match search pat text with
      | Some gs =>
          v ← Float.float (group1 gs);
          parse_loop ps' text (<[param := v]> readings)
      | None => parse_loop ps' text readings
      end
  end.

Definition parse_extracted_text (text : string) : result (gmap string Q) :=
  parse_loop patterns (list_ascii_of_string text) ∅.

End ReadingParser.

(** ** Reading the patterns declaratively *)

Module ParserSpec.

Import Re.

(** The longest prefix of [s] inside class [k], and what follows it. *)
Fixpoint take_class (k : cclass) (s : list ascii) : list ascii :=
  match s with
  | a :: s' => if in_class k a then a :: take_class k s' else []
  | [] => []
  end.

Fixpoint drop_class (k : cclass) (s : list ascii) : list ascii :=
  match s with
  | a :: s' => if in_class k a then drop_class k s' else s
  | [] => []
  end.

(** [s] does not begin with a character of class [k]. *)
Definition stops (k : cclass) (s : list ascii) : Prop :=
  match s with
  | a :: _ => in_class k a = false
  | [] => True
  end.

Definition all_in (k : cclass) (s : list ascii) : Prop :=
  Forall (fun a => in_class k a = true) s.

(** Same letters up to case, position by position. *)
Definition same_letters (l l' : list ascii) : Prop :=
  Forall2 (fun c a => eq_ignorecase c a = true) l l'.

(** What the tail [[:\s]*([\d.]+)] of every pattern captures. *)
Definition number_after (s : list ascii) : list ascii :=
  take_class DigitDot (drop_class ColonSpace s).

(** The text [s] shows, from its first character on: the label in any
    letter case, then colons and whitespace, then the token [tok] of
    digits and dots, which is not followed by a further digit or dot. *)
Definition labelled_number_at (label : string) (s tok : list ascii) : Prop :=
  exists l sep rest,
    s = l ++ sep ++ tok ++ rest /\
    same_letters (list_ascii_of_string label) l /\
    all_in ColonSpace sep /\
    tok <> [] /\ all_in DigitDot tok /\ stops DigitDot rest.

(** [tok] is the token of the first place of the text, in document
    order, where a labelled number can be read. *)
Definition first_labelled_number (label : string) (text : list ascii)
    (tok : list ascii) : Prop :=
  exists pre suf,
    text = pre ++ suf /\ labelled_number_at label suf tok /\
    forall pre' suf' tok',
      text = pre' ++ suf' -> length pre' < length pre ->
      ~ labelled_number_at label suf' tok'.

(** Column key and canonical label of the five parameters. *)
Definition parameters : list (string * string) :=
  [ ("pH", "pH");
    ("Chlorine (mg/L)", "Chlorine");
    ("Hardness (mg/L as CaCO3)", "Hardness");
    ("Nitrates (mg/L)", "Nitrates");
    ("Lead (µg/L)", "Lead") ].

End ParserSpec.

(** ** The patterns in plain words *)

Module PatternWords.

(** The characters of the class [[:\s]] in a text of ASCII: the colon,
    the space, tab, line feed, vertical tab, form feed, carriage return,
    and the four separators 28 to 31. *)
Definition colon_or_space : list ascii :=
  [ ":"; " "; "009"; "010"; "011"; "012"; "013";
    "028"; "029"; "030"; "031" ]%char.

(** The characters of the class [[\d.]] in a text of ASCII. *)
Definition digit_or_dot : list ascii :=
  [ "0"; "1"; "2"; "3"; "4"; "5"; "6"; "7"; "8"; "9"; "." ]%char.

(** The letters of ASCII, small and capital. *)
Definition letters : list (ascii * ascii) :=
  [ ("a", "A"); ("b", "B"); ("c", "C"); ("d", "D"); ("e", "E"); ("f", "F");
    ("g", "G"); ("h", "H"); ("i", "I"); ("j", "J"); ("k", "K"); ("l", "L");
    ("m", "M"); ("n", "N"); ("o", "O"); ("p", "P"); ("q", "Q"); ("r", "R");
    ("s", "S"); ("t", "T"); ("u", "U"); ("v", "V"); ("w", "W"); ("x", "X");
    ("y", "Y"); ("z", "Z") ]%char.

(** The same character, or the same letter in its two cases. *)
Definition same_letter (c a : ascii) : Prop :=
  c = a \/ (c, a) ∈ letters \/ (a, c) ∈ letters.

(** A text of ASCII characters.  On other characters the classes and the
    case folding of Python are wider than those described here. *)
Definition ascii_text (text : string) : Prop :=
  Forall (fun a => nat_of_ascii a < 128) (list_ascii_of_string text).

(** From its first character on, the text [s] shows the label, each
    letter in either case, then colons and white space, if any, then the
    token [tok] of digits and dots, which has at least one character and
    is not followed by a further digit or dot. *)
Definition number_read_at (label : string) (s tok : list ascii) : Prop :=
  exists l sep rest,
    s = l ++ sep ++ tok ++ rest /\
    Forall2 same_letter (list_ascii_of_string label) l /\
    Forall (fun a => a ∈ colon_or_space) sep /\
    tok <> [] /\
    Forall (fun a => a ∈ digit_or_dot) tok /\
    (forall a rest', rest = a :: rest' -> a ∉ digit_or_dot).

(** [tok] is the token read at the first place of the text, in document
    order, where a number can be read after the label. *)
Definition first_number_read (label : string) (text tok : list ascii)
    : Prop :=
  exists pre suf,
    text = pre ++ suf /\ number_read_at label suf tok /\
    forall pre' suf' tok',
      text = pre' ++ suf' -> length pre' < length pre ->
      ~ number_read_at label suf' tok'.

(** A text for the examples: labels in capitals and in mixed case, a tab,
    a line feed, a separator, doubled colons, every digit, and a token
    that begins with its dot. *)
Definition mixed_text : string :=
  "PH:" +:+ String "009" ("6.8" +:+ String "010" ("CHLORINE : 0.45 hardness"
    +:+ String "031" "1234567890 nItRaTeS::  9 lead.5")).

End PatternWords.

(** ** Zone resolution: [get_nearest_zipcode] and
       [get_zipcode_from_coordinates] *)

Module GeoResolver.

(** A value decoded by [response.json()]; [JNull] is also Python's
    [None]. *)
#[warnings="-register-all"]
Inductive json :=
  | JNull
  | JBool (b : bool)
  | JNum (q : Q)
  | JStr (s : string)
  | JArr (l : list json)
  | JObj (o : gmap string json).

(** [x == key] for a decoded value [x] and a string [key]. *)
Definition equals_str (key : string) (x : json) : bool :=
  match x with
  | JStr s => bool_decide (s = key)
  | _ => false
  end.

(** [key in v]: key membership for a dict, element membership for a list,
    substring test for a string, [TypeError] for the other values. *)
Definition py_in (key : string) (v : json) : result bool :=
  match v with
  | JObj o => Ok (bool_decide (is_Some (o !! key)))
  | JArr l => Ok (existsb (equals_str key) l)
  | JStr s => Ok (bool_decide (is_Some (String.index 0 key s)))
  | JNull | JBool _ | JNum _ => Raise TypeError
  end.

(** [v[key]] with a string [key]. *)
Definition py_getitem (v : json) (key : string) : result json :=
  match v with
  | JObj o =>
      match o !! key with
      | Some x => Ok x
      | None => Raise KeyError
      end
  | _ => Raise TypeError
  end.

(** A point as the pair [(lat, lon)]. *)
Definition coords := (Q * Q)%type.

Definition known_zipcode_coords : list (string * coords) :=
  [ ("95110", (37.3422, -121.8996));
    ("95112", (37.3535, -121.8865));
    ("95113", (37.3333, -121.8907));
    ("95116", (37.3496, -121.8569));
    ("95117", (37.3126, -121.9502));
    ("95118", (37.2505, -121.8891));
    ("95120", (37.2060, -121.8133)) ]%Q.

(** The running minimum: [float("inf")] or a distance. *)
Inductive min_dist :=
  | Inf
  | Dist (d : Q).

(** [distance < min_distance]. *)
Definition below (distance : Q) (m : min_dist) : bool :=
  match m with
  | Inf => true
  | Dist d => Qltb distance d
  end.

(** The query sent to the geocoding service, and the keyword arguments of
    [requests.get]; an argument the call does not pass keeps the default
    of the library, [timeout=None], which waits without bound. *)
Record reverse_url := {
  url_format : string;
  url_lat : Q;
  url_lon : Q;
  url_zoom : Z;
  url_addressdetails : Z
}.

Record get_call := {
  call_url : reverse_url;
  call_timeout : option Q
}.

Record response := {
  status_code : Z;
  body : option json   (* [None]: the body is not JSON *)
}.

Definition raise_for_status (r : response) : result unit :=
  if ((400 <=? status_code r) && (status_code r <? 600))%Z
  then Raise (RequestException HTTPError)
  else Ok tt.

(** [response.json()]; the error it raises on a body that is not JSON is
    a [RequestException] (requests 2.27 and later). *)
Definition response_json (r : response) : result json :=
  match body r with
  | Some data => Ok data
  | None => Raise (RequestException JSONDecodeError)
  end.

(** What the page shows besides the returned value. *)
Inductive ui_event :=
  | warning_could_not_connect (e : request_exception).

Section Resolver.

(** [geodesic(p, q).miles] of geopy. *)
Variable geodesic_miles : coords -> coords -> Q.

(** [requests.get], that is the network and the remote service. *)
Variable requests_get : get_call -> result response.

(** The loop of [get_nearest_zipcode] over the items of a table. *)
Fixpoint nearest_loop (items : list (string * coords)) (lat lon : Q)
    (min_distance : min_dist) (nearest_zipcode : option string)
    : option string :=
  match items with
  | [] => nearest_zipcode
  | (zipcode, coord) :: items' =>
      let distance := geodesic_miles (lat, lon) coord in
      if below distance min_distance
      then nearest_loop items' lat lon (Dist distance) (Some zipcode)
      else nearest_loop items' lat lon min_distance nearest_zipcode
  end.

Definition get_nearest_zipcode_in (table : list (string * coords))
    (lat lon : Q) : option string :=
  nearest_loop table lat lon Inf None.

Definition get_nearest_zipcode (lat lon : Q) : option string :=
  get_nearest_zipcode_in known_zipcode_coords lat lon.

(** The value a Python caller receives from [get_nearest_zipcode]. *)
Definition nearest_value (lat lon : Q) : json :=
  match get_nearest_zipcode lat lon with
  | Some zipcode => JStr zipcode
  | None => JNull
  end.

Definition reverse_call (lat lon : Q) : get_call :=
  {| call_url := {| url_format := "json"; url_lat := lat; url_lon := lon;
                    url_zoom := 10; url_addressdetails := 1 |};
     call_timeout := None |}.

(** The body of the [try] block. *)
Definition try_remote (lat lon : Q) : result json :=
  response ← requests_get (reverse_call lat lon);
  _ ← raise_for_status response;
  data ← response_json response;
  has_address ← py_in "address" data;
  if (has_address : bool) then
    address ← py_getitem data "address";
    has_postcode ← py_in "postcode" address;
    if (has_postcode : bool) then
      address' ← py_getitem data "address";
      py_getitem address' "postcode"
    else Ok (nearest_value lat lon)
  else Ok (nearest_value lat lon).

(** The returned value (or the exception that escapes) and the warnings
    shown on the way. *)
Definition get_zipcode_from_coordinates (lat lon : Q)
    : result json * list ui_event :=
  match try_remote lat lon with
  | Raise (RequestException e) =>
      (Ok (nearest_value lat lon), [warning_could_not_connect e])
  | r => (r, [])
  end.

End Resolver.

(** A stand-in for the geodesic distance on short ranges: the squared
    flat-earth (equirectangular) distance, in squared degrees of latitude,
    [dlat^2 + (cos(mid latitude) * dlon)^2], with the cosine taken from its
    Taylor polynomial of degree 8 and pi as 355/113.  The search only
    compares distances, so the square and the unit do not matter. *)
Definition cos_poly (x : Q) : Q :=
  let x2 := (x * x)%Q in
  (1 - x2 / 2 + x2 * x2 / 24 - x2 * x2 * x2 / 720
     + x2 * x2 * x2 * x2 / 40320)%Q.

Definition radians (deg : Q) : Q := (deg * (355 # 113) / 180)%Q.

Definition flat_distance2 (p q : coords) : Q :=
  let dlat := (fst q - fst p)%Q in
  let dlon := (snd q - snd p)%Q in
  let c := cos_poly (radians ((fst p + fst q) / 2)%Q) in
  Qred (dlat * dlat + (c * dlon) * (c * dlon))%Q.

(** [z] is the key of the first entry of [table], in its order, whose
    distance from [p] is minimal. *)
Definition first_nearest (d : coords -> coords -> Q)
    (table : list (string * coords)) (p : coords) (z : string) : Prop :=
  exists (i : nat) c,
    table !! i = Some (z, c) /\
    (forall (j : nat) z' c',
       table !! j = Some (z', c') -> (d p c <= d p c')%Q) /\
    (forall (j : nat) z' c',
       j < i -> table !! j = Some (z', c') -> (d p c < d p c')%Q).

(** The state of the search loop after the entries [seen]: nothing seen
    yet, or the first nearest entry of [seen] and its distance. *)
Definition loop_state (d : coords -> coords -> Q) (p : coords)
    (seen : list (string * coords)) (m : min_dist) (n : option string)
    : Prop :=
  (seen = [] /\ m = Inf /\ n = None) \/
  (exists z, n = Some z /\
     exists (i : nat) c,
       m = Dist (d p c) /\ seen !! i = Some (z, c) /\
       (forall (j : nat) z' c',
          seen !! j = Some (z', c') -> (d p c <= d p c')%Q) /\
       (forall (j : nat) z' c',
          j < i -> seen !! j = Some (z', c') -> (d p c < d p c')%Q)).

(** [d] ranks the centroids of a table, seen from [p], as [d'] does. *)
Definition ranks_like (d d' : coords -> coords -> Q)
    (table : list (string * coords)) (p : coords) : Prop :=
  forall z1 c1 z2 c2,
    (z1, c1) ∈ table -> (z2, c2) ∈ table ->
    (d' p c1 < d' p c2)%Q -> (d p c1 < d p c2)%Q.

(** The call failed in the sense of the resolver: an exception of
    [requests], an error status, a body that is not JSON, a JSON object
    with no "address" key, or a JSON object whose "address" is an object
    with no "postcode" key. *)
Inductive remote_failure (r : result response) : Prop :=
  | failure_exception e :
      r = Raise (RequestException e) -> remote_failure r
  | failure_status resp :
      r = Ok resp -> (400 <= status_code resp < 600)%Z -> remote_failure r
  | failure_not_json resp :
      r = Ok resp -> ~ (400 <= status_code resp < 600)%Z ->
      body resp = None -> remote_failure r
  | failure_no_address resp o :
      r = Ok resp -> ~ (400 <= status_code resp < 600)%Z ->
      body resp = Some (JObj o) -> o !! "address" = None ->
      remote_failure r
  | failure_no_postcode resp o a :
      r = Ok resp -> ~ (400 <= status_code resp < 600)%Z ->
      body resp = Some (JObj o) -> o !! "address" = Some (JObj a) ->
      a !! "postcode" = None -> remote_failure r.

(** Python's truth value of a decoded value: [None], [False], zero, the
    empty string, the empty list and the empty dict are false. *)
Definition truthy (v : json) : bool :=
  match v with
  | JNull => false
  | JBool b => b
  | JNum q => negb (Qeq_bool q 0)
  | JStr s => negb (String.eqb s "")
  | JArr l => match l with [] => false | _ => true end
  | JObj o => negb (Nat.eqb (size o) 0)
  end.

(** What step 1 of the input page shows: the resolver's warnings, then
    the detected zipcode or the notice that none was detected. *)
Inductive location_event :=
  | from_resolver (e : ui_event)
  | detected_zipcode (zipcode : json)
  | could_not_detect.

(** Step 1 of the input page: [zipcode = ""], and when the map reports a
    click, the resolver's value with a success or a warning.
    [last_clicked] is [map_output.get("last_clicked")]. *)
Definition location_step (geodesic_miles : coords -> coords -> Q)
    (requests_get : get_call -> result response)
    (last_clicked : option coords) : result json * list location_event :=
  match last_clicked with
  | None => (Ok (JStr ""), [])
  | Some (lat, lon) =>
      let '(r, shown) :=
        get_zipcode_from_coordinates geodesic_miles requests_get lat lon in
      match r with
      | Ok zipcode =>
          (Ok zipcode,
           map from_resolver shown ++
           [if truthy zipcode then detected_zipcode zipcode
            else could_not_detect])
      | Raise e => (Raise e, map from_resolver shown)
      end
  end.

(** Two distances order the centroids of a table, seen from [p], in the
    same way. *)
Definition same_ranking (d d' : coords -> coords -> Q)
    (table : list (string * coords)) (p : coords) : Prop :=
  forall c1 c2,
    c1 ∈ map snd table -> c2 ∈ map snd table ->
    ((d p c1 < d p c2)%Q <-> (d' p c1 < d' p c2)%Q).

(** The running minima of two searches are the distances of the same
    centroid of the table. *)
Definition same_minimum (d d' : coords -> coords -> Q)
    (table : list (string * coords)) (p : coords) (m m' : min_dist) : Prop :=
  (m = Inf /\ m' = Inf) \/
  (exists c, c ∈ map snd table /\ m = Dist (d p c) /\ m' = Dist (d' p c)).

(** The flat-earth distance in another unit. *)
Definition flat_distance2_scaled (p q : coords) : Q :=
  (25 # 10) * flat_distance2 p q.

(** Two zones at the same distance from the origin, for the examples. *)
Definition twin_table : list (string * coords) :=
  [ ("east", (0, 1)%Q); ("west", (0, -1)%Q) ].

(** The service is unreachable. *)
Definition offline : get_call -> result response :=
  fun _ => Raise (RequestException ConnectionError).

(** A service that answers [null], and one that answers an address with
    an empty postcode. *)
Definition answers (data : json) : get_call -> result response :=
  fun _ => Ok {| status_code := 200; body := Some data |}.

Definition empty_postcode : json :=
  JObj {[ "address" := JObj {[ "postcode" := JStr "" ]} ]}.

(** The service does not answer in time. *)
Definition times_out : get_call -> result response :=
  fun _ => Raise (RequestException Timeout).

End GeoResolver.

(** ** The input page: manual readings, submission and deletion *)

Module ManualInput.

(** A cell of the data frame. *)
Inductive cell :=
  | Num (q : Q)
  | Text (s : string)
  | Time (t : Z).

(** A row of the data frame; a column without a cell is a missing value.
    The frame carries the default index [0, 1, ...], so a row's index
    label is its position. *)
Definition frame := list (gmap string cell).

(** The file [DATA_FILE]: absent, or the frame it holds.  What writing a
    frame and reading it back does to the text of a cell is described
    further down, for the Zipcode column. *)
Definition data_file := option frame.

Definition load_data (file : data_file) : frame :=
  match file with
  | Some data => data
  | None => []
  end.

Definition save_data (data : frame) : data_file := Some data.

Inductive ui_event :=
  | st_success (msg : string)
  | st_error (msg : string).

(** The bounds of a [st.number_input] widget. *)
Record number_input := {
  prompt : string;
  min_value : Q;
  max_value : Q;
  step : Q
}.

Definition input_pH : number_input :=
  {| prompt := "Enter pH level:";
     min_value := 0.0; max_value := 14.0; step := 0.1 |}.
Definition input_chlorine : number_input :=
  {| prompt := "Enter Chlorine (mg/L):";
     min_value := 0.0; max_value := 10.0; step := 0.1 |}.
Definition input_hardness : number_input :=
  {| prompt := "Enter Hardness (mg/L as CaCO3):";
     min_value := 0.0; max_value := 500.0; step := 1.0 |}.
Definition input_nitrates : number_input :=
  {| prompt := "Enter Nitrates (mg/L):";
     min_value := 0.0; max_value := 50.0; step := 0.1 |}.
Definition input_lead : number_input :=
  {| prompt := "Enter Lead (µg/L):";
     min_value := 0.0; max_value := 100.0; step := 0.1 |}.

Definition manual_inputs : list (string * number_input) :=
  [ ("pH", input_pH);
    ("Chlorine (mg/L)", input_chlorine);
    ("Hardness (mg/L as CaCO3)", input_hardness);
    ("Nitrates (mg/L)", input_nitrates);
    ("Lead (µg/L)", input_lead) ].

(** Streamlit hands back, for each widget of the page, a value inside the
    bounds of the widget. *)
Definition within_bounds (st_number_input : number_input -> Q) : Prop :=
  forall key w,
    (key, w) ∈ manual_inputs ->
    (min_value w <= st_number_input w <= max_value w)%Q.

(** The [readings] dict of the manual flow; [st_number_input] is what the
    user entered in each widget. *)
Definition manual_readings (st_number_input : number_input -> Q)
    : gmap string Q :=
  list_to_map (map (fun '(key, w) => (key, st_number_input w)) manual_inputs).

(** The dict [{**readings, "Zipcode": zipcode, "Date": now}]. *)
Definition new_row (zipcode : string) (readings : gmap string Q) (now : Z)
    : gmap string cell :=
  <["Date" := Time now]> (<["Zipcode" := Text zipcode]> (Num <$> readings)).

(** The body of [if st.button("Submit Data")]: the new content of the
    file and the message shown. [now] is [pd.Timestamp.now()]. *)
Definition submit_data (zipcode : string) (readings : gmap string Q)
    (now : Z) (file : data_file) : data_file * ui_event :=
  if bool_decide (zipcode <> "") && bool_decide (readings <> ∅) then
    let data := [new_row zipcode readings now] in
    let existing_data := load_data file in
    let updated_data := existing_data ++ data in
    (save_data updated_data, st_success "Data submitted successfully.")
  else
    (file,
     st_error "Please ensure all data fields are filled out, including a valid zipcode.").

(** [data.drop(i)] followed by [reset_index(drop=True)]: a label that is
    not in the index raises [KeyError]. *)
Definition drop_reset {A} (i : nat) (data : list A) : result (list A) :=
  if (i <? length data)%nat then Ok (delete i data) else Raise KeyError.

(** [save_data] writes the frame with [to_csv], and [load_data] reads it
    back with [pd.read_csv(DATA_FILE)], which is given no [dtype] and so
    infers the type of each column from the text of its cells.  What
    follows describes this for the Zipcode column of a file whose zipcodes
    are written with digits only. *)

(** A cell that is read as an integer: one to eighteen digits. *)
Definition is_integer_text (s : string) : bool :=
  let cs := list_ascii_of_string s in
  negb (Float.is_nil cs) && forallb Re.is_digit cs
  && (length cs <=? 18)%nat.

(** [pd.read_csv(DATA_FILE)] on the Zipcode column: when every cell is an
    integer, the column is a column of int64.  [None]: some cell is not
    written with digits only; such a column is not described. *)
Definition read_zipcode_column (cells : list string) : option (list Z) :=
  if forallb is_integer_text cells
  then Some (map (fun s => Float.digits_val (list_ascii_of_string s)) cells)
  else None.

(** [to_csv] on a column of int64: each number in decimal notation. *)
Definition write_zipcode_column (column : list Z) : list string :=
  map pretty column.

(** The body of the Delete button of entry [i], on the Zipcode column of
    the file: [load_data], [drop(i).reset_index(drop=True)], [save_data]
    and the message. *)
Definition delete_entry (i : nat) (cells : list string)
    : option (result (list string * ui_event)) :=
  match read_zipcode_column cells with
  | Some column =>
      Some (data ← drop_reset i column;
            Ok (write_zipcode_column data,
                st_success "Entry deleted successfully."))
  | None => None
  end.

(** Readings for the examples: what the parser reads from
    "pH: 7.2 Chlorine 1.5mg/L", and a complete set. *)
Definition partial_readings : gmap string Q :=
  {[ "pH" := Qred 7.2; "Chlorine (mg/L)" := Qred 1.5 ]}.

Definition complete_readings : gmap string Q :=
  {[ "pH" := 7.2%Q; "Chlorine (mg/L)" := 1.5%Q;
     "Hardness (mg/L as CaCO3)" := 80%Q; "Nitrates (mg/L)" := 2.5%Q;
     "Lead (µg/L)" := 0.0%Q ]}.

(** [trigger_rerun]: set the flag ['refresh'] when it is missing, negate
    it otherwise. *)
Definition trigger_rerun (st : gmap string GeoResolver.json)
    : gmap string GeoResolver.json :=
  match st !! "refresh" with
  | None => <["refresh" := GeoResolver.JBool true]> st
  | Some v =>
      <["refresh" := GeoResolver.JBool (negb (GeoResolver.truthy v))]> st
  end.

(** What the widgets of the Edit form of an entry hand back. *)
Record edited_values := {
  edited_zipcode : string;
  edited_date : Z;
  edited_ph : Q;
  edited_chlorine : Q;
  edited_hardness : Q;
  edited_nitrates : Q;
  edited_lead : Q
}.

(** [data.at[i, col] = v] for a label [i] of the index. [None]: [i] is
    not a label of the frame; pandas then adds a row, which the model
    leaves out (the loop takes [i] from the rows of the frame). *)
Definition at_set (i : nat) (col : string) (v : cell)
    (data : list (gmap string cell)) : option (list (gmap string cell)) :=
  match data !! i with
  | Some row => Some (<[i := <[col := v]> row]> data)
  | None => None
  end.

(** The seven assignments of the Save Changes button of entry [i]. *)
Definition save_changes (i : nat) (e : edited_values)
    (data : list (gmap string cell)) : option (list (gmap string cell)) :=
  data ← at_set i "Zipcode" (Text (edited_zipcode e)) data;
  data ← at_set i "Date" (Time (edited_date e)) data;
  data ← at_set i "pH" (Num (edited_ph e)) data;
  data ← at_set i "Chlorine (mg/L)" (Num (edited_chlorine e)) data;
  data ← at_set i "Hardness (mg/L as CaCO3)" (Num (edited_hardness e)) data;
  data ← at_set i "Nitrates (mg/L)" (Num (edited_nitrates e)) data;
  at_set i "Lead (µg/L)" (Num (edited_lead e)) data.

(** The columns of the data file. *)
Definition columns : list string :=
  [ "Zipcode"; "Date"; "pH"; "Chlorine (mg/L)"; "Hardness (mg/L as CaCO3)";
    "Nitrates (mg/L)"; "Lead (µg/L)" ].

(** The row the Save Changes button leaves at entry [i]. *)
Definition edited_row (e : edited_values) (row : gmap string cell)
    : gmap string cell :=
  <["Lead (µg/L)" := Num (edited_lead e)]>
    (<["Nitrates (mg/L)" := Num (edited_nitrates e)]>
      (<["Hardness (mg/L as CaCO3)" := Num (edited_hardness e)]>
        (<["Chlorine (mg/L)" := Num (edited_chlorine e)]>
          (<["pH" := Num (edited_ph e)]>
            (<["Date" := Time (edited_date e)]>
              (<["Zipcode" := Text (edited_zipcode e)]> row)))))).

(** Values for the examples. *)
Definition some_edit : edited_values :=
  {| edited_zipcode := "95112"; edited_date := 1730100000;
     edited_ph := 7.0; edited_chlorine := 1.0; edited_hardness := 90;
     edited_nitrates := 3.0; edited_lead := 1.5 |}.

(** The five parameters the specification requires of a record. *)
Definition required : list string :=
  [ "pH"; "Chlorine (mg/L)"; "Hardness (mg/L as CaCO3)";
    "Nitrates (mg/L)"; "Lead (µg/L)" ].

End ManualInput.

(** ** The home page: the compliance check *)

Module HomePage.

Record details := {
  range : Q * Q;
  description : string;
  health_impact : string
}.

Definition SAFE_RANGES : list (string * details) :=
  [ ("pH",
     {| range := (6.5, 8.5)%Q;
        description := "pH indicates the acidity or alkalinity of water. Safe drinking water typically has a pH between 6.5 and 8.5.";
        health_impact := "Water that is too acidic or too alkaline can cause skin irritation and affect taste." |});
    ("Chlorine (mg/L)",
     {| range := (0, 4)%Q;
        description := "Chlorine is used to disinfect water. Safe levels are below 4 mg/L.";
        health_impact := "High chlorine levels can cause eye and skin irritation and affect taste." |});
    ("Hardness (mg/L as CaCO3)",
     {| range := (0, 120)%Q;
        description := "Water hardness is caused by dissolved minerals like calcium and magnesium. Ideally, it should be less than 120 mg/L.";
        health_impact := "Hard water can lead to mineral buildup in pipes and potentially dry out skin." |});
    ("Nitrates (mg/L)",
     {| range := (0, 10)%Q;
        description := "Nitrates in water come from fertilizers and waste. Safe levels are below 10 mg/L.";
        health_impact := "High nitrate levels can be harmful, especially to infants, causing conditions like 'blue baby syndrome.'" |});
    ("Lead (µg/L)",
     {| range := (0, 15)%Q;
        description := "Lead is a toxic metal, especially dangerous for children. Safe levels are below 15 µg/L.";
        health_impact := "Exposure to lead can lead to developmental issues in children and health problems in adults." |}) ].

Definition is_within_safe_range (value : pyfloat) (min_val max_val : Q)
    : bool :=
  fle (Finite min_val) value && fle value (Finite max_val).

(** What the loop renders. *)
Inductive ui_event :=
  | st_subheader (param : string)
  | st_current_level (current_value : pyfloat) (safe : bool)
  | st_what_it_means (description : string)
  | st_health_impact (health_impact : string)
  | st_progress (fraction : pyfloat)
  | st_out_of_range (param : string).

(** The status the loop computes for one parameter: its name, the current
    value and whether the value is in the safe range. *)
Record status := {
  parameter : string;
  value : pyfloat;
  in_range : bool
}.

(** The argument the loop hands to [st.progress]:
    [min(current_value / max(safe_max, current_value), 1.0)]. *)
Definition progress_fraction (current_value : pyfloat) (safe_max : Q)
    : pyfloat :=
  py_min (fdiv current_value (py_max (Finite safe_max) current_value))
    (Finite 1).

(** How the loop ends: it reaches the end of the table, or [st.progress]
    refuses its argument and raises [StreamlitAPIException], which nothing
    catches. *)
Inductive ending :=
  | finished
  | progress_raised.

(** What a run of the loop leaves: the statuses computed, the page, and
    how the run ended. *)
Record run := {
  statuses : list status;
  shown : list ui_event;
  ending_of : ending
}.

Section Page.

(** [st.progress]: whether it accepts a value; it raises on a value it
    does not accept. *)
Variable st_progress_accepts : pyfloat -> bool.

(** One iteration of [for param, details in SAFE_RANGES.items()]: the
    status computed, the page output after it, and whether the iteration
    reached its end ([false]: [st.progress] raised).  [entry_data] is the
    selected row, read by column name. *)
Definition evaluate_param (entry_data : string -> pyfloat)
    (item : string * details) (page : list ui_event)
    : status * list ui_event * bool :=
  let '(param, details) := item in
  let page := page ++ [st_subheader param] in
  let current_value := entry_data param in
  let '(safe_min, safe_max) := range details in
  let in_safe_range := is_within_safe_range current_value safe_min safe_max in
  let page := page ++ [st_current_level current_value in_safe_range] in
  let page := page ++ [st_what_it_means (description details)] in
  let page := page ++ [st_health_impact (health_impact details)] in
  let status := {| parameter := param; value := current_value;
                   in_range := in_safe_range |} in
  let fraction := progress_fraction current_value safe_max in
  if st_progress_accepts fraction then
    let page := page ++ [st_progress fraction] in
    let page :=
      if in_safe_range then page else page ++ [st_out_of_range param] in
    (status, page, true)
  else (status, page, false).

Fixpoint evaluate_loop (items : list (string * details))
    (entry_data : string -> pyfloat) (page : list ui_event) : run :=
  match items with
  | [] => {| statuses := []; shown := page; ending_of := finished |}
  | item :: items' =>
      match evaluate_param entry_data item page with
      | (st, page, true) =>
          let r := evaluate_loop items' entry_data page in
          {| statuses := st :: statuses r; shown := shown r;
             ending_of := ending_of r |}
      | (st, page, false) =>
          {| statuses := [st]; shown := page; ending_of := progress_raised |}
      end
  end.

Definition evaluate (entry_data : string -> pyfloat) (page : list ui_event)
    : run :=
  evaluate_loop SAFE_RANGES entry_data page.

End Page.

(** What is assumed of [st.progress]: it accepts a number between 0 and 1,
    and it refuses NaN and the infinities. *)
Definition progress_contract (accepts : pyfloat -> bool) : Prop :=
  (forall q, (0 <= q <= 1)%Q -> accepts (Finite q) = true) /\
  accepts NaN = false /\ accepts PosInf = false /\ accepts NegInf = false.

(** The bound its documentation gives for a float:
    [0.0 <= value <= 1.0]. *)
Definition unit_interval (value : pyfloat) : bool :=
  fle (Finite 0) value && fle value (Finite 1).

(** The status of one parameter, read off the row and the band alone. *)
Definition status_of (entry_data : string -> pyfloat)
    (item : string * details) : status :=
  {| parameter := fst item;
     value := entry_data (fst item);
     in_range :=
       is_within_safe_range (entry_data (fst item))
         (fst (range (snd item))) (snd (range (snd item))) |}.

(** The value the loop hands to the progress bar of a parameter. *)
Definition bar_value (entry_data : string -> pyfloat)
    (item : string * details) : pyfloat :=
  progress_fraction (entry_data (fst item)) (snd (range (snd item))).

(** What the loop shows for a parameter before its progress bar. *)
Definition shown_before_bar (entry_data : string -> pyfloat)
    (item : string * details) : list ui_event :=
  [ st_subheader (fst item);
    st_current_level (entry_data (fst item))
      (in_range (status_of entry_data item));
    st_what_it_means (description (snd item));
    st_health_impact (health_impact (snd item)) ].

(** What one iteration of the loop adds to the page: the four lines
    before the progress bar, then, when [st.progress] accepts its value,
    the bar and the warning of a value out of range. *)
Definition shown_for (accepts : pyfloat -> bool)
    (entry_data : string -> pyfloat) (item : string * details)
    : list ui_event :=
  shown_before_bar entry_data item ++
  if accepts (bar_value entry_data item) then
    st_progress (bar_value entry_data item)
      :: (if in_range (status_of entry_data item) then []
          else [st_out_of_range (fst item)])
  else [].

(** The items the loop gets to: those up to and including the first one
    whose bar value [st.progress] refuses. *)
Fixpoint reached (accepts : pyfloat -> bool)
    (entry_data : string -> pyfloat) (items : list (string * details))
    : list (string * details) :=
  match items with
  | [] => []
  | item :: items' =>
      item :: if accepts (bar_value entry_data item)
              then reached accepts entry_data items' else []
  end.

(** The band of each parameter as a pair of bounds. *)
Definition bands : list (string * (Q * Q)) :=
  map (fun '(param, details) => (param, range details)) SAFE_RANGES.

(** Modelled from the spec: [is_fully_compliant], the aggregate predicate
    of the compliance evaluator, "all five parameter values are in range";
    the source has the loop only and no aggregate. *)
Definition is_fully_compliant (entry_data : string -> pyfloat) : bool :=
  forallb
    (fun '(param, (lo, hi)) => is_within_safe_range (entry_data param) lo hi)
    bands.

(** A reading that is present and not negative. *)
Definition usable (v : pyfloat) : Prop :=
  exists q, v = Finite q /\ (0 <= q)%Q.

(** Rows for the examples: pH 9.0 and every other parameter at 1; a
    negative reading of lead; and the row a submission of the readings pH
    and chlorine alone leaves in the file, whose other cells are read back
    as NaN. *)
Definition alkaline_row (param : string) : pyfloat :=
  if String.eqb param "pH" then Finite 9.0 else Finite 1.

Definition negative_row (param : string) : pyfloat :=
  if String.eqb param "Lead (µg/L)" then Finite (-3) else Finite 1.

Definition partial_row (param : string) : pyfloat :=
  if String.eqb param "pH" then Finite 7.2
  else if String.eqb param "Chlorine (mg/L)" then Finite 1.5
  else NaN.

(** A row of the loaded data: the zipcode cell, the parsed date as
    seconds since the epoch, and the numeric columns by name.  The file
    has the five numeric columns from its first row on (a submission is
    appended to a frame that has them); a cell without a value is read as
    NaN. *)
Record entry := {
  Zipcode : string;
  Date : Z;
  reading : string -> pyfloat
}.

(** [.dt.date]: the calendar day of a timestamp. *)
Definition date_of (t : Z) : Z := (t / 86400)%Z.

(** [unique()]: the distinct values in order of first appearance. *)
Fixpoint unique_loop {A} `{EqDecision A} (seen l : list A) : list A :=
  match l with
  | [] => []
  | x :: l' =>
      if decide (x ∈ seen) then unique_loop seen l'
      else x :: unique_loop (x :: seen) l'
  end.

Definition unique {A} `{EqDecision A} (l : list A) : list A :=
  unique_loop [] l.

Definition unique_zipcodes (data : list entry) : list string :=
  unique (map Zipcode data).

(** [data[data["Zipcode"] == selected_zipcode]]. *)
Definition zipcode_data (data : list entry) (selected_zipcode : string)
    : list entry :=
  List.filter (fun r => bool_decide (Zipcode r = selected_zipcode)) data.

Definition available_dates (zipcode_data : list entry) : list Z :=
  unique (map (fun r => date_of (Date r)) zipcode_data).

(** [zipcode_data[zipcode_data["Date"].dt.date == selected_date]]. *)
Definition selected_data (zipcode_data : list entry) (selected_date : Z)
    : list entry :=
  List.filter (fun r => bool_decide (date_of (Date r) = selected_date))
    zipcode_data.

(** [range(1, len(selected_data) + 1)]. *)
Definition entry_options (selected_data : list entry) : list Z :=
  map Z.of_nat (seq 1 (length selected_data)).

(** [frame.iloc[n]]: a negative position counts from the end, a position
    outside the frame is an error ([None]). *)
Definition iloc {A} (rows : list A) (n : Z) : option A :=
  if (0 <=? n)%Z then rows !! Z.to_nat n
  else if (0 <=? Z.of_nat (length rows) + n)%Z
       then rows !! Z.to_nat (Z.of_nat (length rows) + n)
       else None.

(** What the page ends up showing: one of its two warnings, the error of
    a position outside the selection, or the entry chosen with the run of
    the loop on it. *)
Inductive view :=
  | no_data_yet
  | nothing_for_selection
  | position_error
  | shows_entry (e : entry) (r : run).

(** The page for the choices made in its three select boxes. *)
Definition home_view (st_progress_accepts : pyfloat -> bool)
    (data : list entry) (selected_zipcode : string)
    (selected_date : Z) (entry_selector : Z) : view :=
  match data with
  | [] => no_data_yet
  | _ =>
      let zd := zipcode_data data selected_zipcode in
      let sd := selected_data zd selected_date in
      match sd with
      | [] => nothing_for_selection
      | _ =>
          match iloc sd (entry_selector - 1) with
          | Some entry_data =>
              shows_entry entry_data
                (evaluate st_progress_accepts (reading entry_data) [])
          | None => position_error
          end
      end
  end.

(** Rows for the examples. *)
Definition sample_entries : list entry :=
  [ {| Zipcode := "95110"; Date := 1730000000; reading := alkaline_row |};
    {| Zipcode := "95112"; Date := 1730000500;
       reading := fun _ => Finite 1 |};
    {| Zipcode := "95110"; Date := 1730001000;
       reading := fun _ => Finite 1 |} ].

End HomePage.

(** ** The professional dashboard: compliance monitoring *)

Module Dashboard.

Definition REGULATORY_STANDARDS : list (string * (Q * Q)) :=
  [ ("pH", (6.5, 8.5)%Q);
    ("Chlorine (mg/L)", (0, 4)%Q);
    ("Hardness (mg/L as CaCO3)", (0, 120)%Q);
    ("Nitrates (mg/L)", (0, 10)%Q);
    ("Lead (µg/L)", (0, 15)%Q) ].

(** The mask [(filtered_data[param] < min_val) | (filtered_data[param] >
    max_val)] on one value. *)
Definition out_of_band (value : pyfloat) (min_val max_val : Q) : bool :=
  flt value (Finite min_val) || flt (Finite max_val) value.

(** [non_compliant_data]: the rows the mask keeps. A row is read by column
    name. *)
Definition non_compliant_data (filtered_data : list (string -> pyfloat))
    (param : string) (min_val max_val : Q) : list (string -> pyfloat) :=
  List.filter (fun row => out_of_band (row param) min_val max_val)
    filtered_data.

(** [load_data] of the dashboard on the Zipcode column of the file: with
    [dtype={"Zipcode": str}] the cells are read as the text they are. *)
Definition load_zipcodes (cells : list string) : list string := cells.

(** [pd.to_datetime] of a calendar day: its midnight, in seconds. *)
Definition to_datetime (day : Z) : Z := (day * 86400)%Z.

(** The filtered data, or the [IndexError] of [selected_date_range[1]]. *)
Inductive filter_outcome :=
  | filtered (rows : list HomePage.entry)
  | index_error.

(** Step 1 of the dashboard: the rows of the selected zipcodes inside the
    selected date range, or all the data when either selection is empty.
    [selected_date_range] is what [st.date_input] holds: no date, a start
    date, or a start and an end date. *)
Definition filter_data (data : list HomePage.entry)
    (selected_zipcodes : list string) (selected_date_range : list Z)
    : filter_outcome :=
  match selected_zipcodes, selected_date_range with
  | _ :: _, _ :: _ =>
      match selected_date_range !! 0%nat, selected_date_range !! 1%nat with
      | Some first, Some last =>
          filtered
            (List.filter
               (fun r =>
                  bool_decide (HomePage.Zipcode r ∈ selected_zipcodes)
                  && (to_datetime first <=? HomePage.Date r)%Z
                  && (HomePage.Date r <=? to_datetime last)%Z)
               data)
      | _, _ => index_error
      end
  | _, _ => filtered data
  end.

(** The dashboard's own table of centroids. *)
Definition known_zipcode_coords : list (string * GeoResolver.coords) :=
  [ ("95110", (37.3422, -121.8996));
    ("95112", (37.3535, -121.8865));
    ("95113", (37.3333, -121.8907));
    ("95116", (37.3496, -121.8569));
    ("95117", (37.3126, -121.9502));
    ("95118", (37.2505, -121.8891));
    ("95120", (37.2060, -121.8133)) ]%Q.

(** [table[key]] for a dict given by its items. *)
Fixpoint dict_get {A} (key : string) (table : list (string * A)) : option A :=
  match table with
  | [] => None
  | (k, v) :: table' => if String.eqb k key then Some v else dict_get key table'
  end.

Record marker := {
  location : GeoResolver.coords;
  popup : string
}.

(** The markers added to the map: one for each selected zipcode that the
    table knows. *)
Fixpoint add_markers (selected_zipcodes : list string) : list marker :=
  match selected_zipcodes with
  | [] => []
  | zipcode :: rest =>
      match dict_get zipcode known_zipcode_coords with
      | Some (lat, lon) =>
          {| location := (lat, lon); popup := "Zipcode: " +:+ zipcode |}
            :: add_markers rest
      | None => add_markers rest
      end
  end.

(** Rows for the examples: two entries of one day, at midnight and in the
    afternoon. *)
Definition day_entries : list HomePage.entry :=
  [ {| HomePage.Zipcode := "95110"; HomePage.Date := 20000 * 86400;
       HomePage.reading := fun _ => Finite 1 |};
    {| HomePage.Zipcode := "95110"; HomePage.Date := 20000 * 86400 + 50000;
       HomePage.reading := fun _ => Finite 1 |} ].

End Dashboard.

(** ** The image flow: [extract_text_from_image] *)

Module Extraction.

(** One detection of the OCR reader: the corners of the region, the text
    read and the confidence. *)
Record detection := {
  region : list (Z * Z);
  text : string;
  confidence : Q
}.

Section Reader.

(** The images, and [reader.readtext] on the array of an image. *)
Variable image : Type.
Variable readtext : image -> list detection.

(** [" ".join([text for _, text, _ in results])]. *)
Definition extract_text_from_image (img : image) : string :=
  let results := readtext img in
  String.concat " " (map text results).

End Reader.

(** Two texts that differ in the case of their letters only. *)
Definition same_up_to_case (t t' : string) : Prop :=
  map Re.lower (list_ascii_of_string t) =
  map Re.lower (list_ascii_of_string t').

(** A text without any of the digits 0 to 9 and without any dot. *)
Definition no_digit_or_dot (t : string) : Prop :=
  Forall (fun a => Re.in_class Re.DigitDot a = false) (list_ascii_of_string t).

(** The text of a detection ends with the label, in any letter case. *)
Definition ends_with_label (label : string) (d : detection) : Prop :=
  exists pre l,
    list_ascii_of_string (text d) = pre ++ l /\
    ParserSpec.same_letters (list_ascii_of_string label) l.

(** The text of a detection begins with a digit or a dot. *)
Definition begins_with_number (d : detection) : Prop :=
  exists a rest,
    list_ascii_of_string (text d) = a :: rest /\
    Re.in_class Re.DigitDot a = true.

(** A reader for the examples: it finds the label and the value of the
    pH in two separate regions. *)
Definition two_boxes (_ : unit) : list detection :=
  [ {| region := [(0, 0); (40, 0); (40, 20); (0, 20)]%Z;
       text := "Water pH"; confidence := 0.9 |};
    {| region := [(50, 0); (90, 0); (90, 20); (50, 20)]%Z;
       text := "7.2 ok"; confidence := 0.8 |} ].

End Extraction.

(** * Proofs *)

(** Case analysis on the membership [H] of an element in a table written
    out in the source; [tac] closes the goal for each entry. *)
Ltac each_entry H tac :=
  repeat (apply elem_of_cons in H as [H|H];
          [try (injection H as -> ->); try subst; tac|]);
  inversion H.

(** ** Facts about the matcher *)

Module ReFacts.

Import Re ParserSpec.

Lemma take_drop_class k s : take_class k s ++ drop_class k s = s.
Proof.
  induction s as [|a s IH]; simpl; [reflexivity|].
  destruct (in_class k a); simpl; [now rewrite IH | reflexivity].
Qed.

Lemma take_class_all k s : all_in k (take_class k s).
Proof.
  induction s as [|a s IH]; simpl; [constructor|].
  destruct (in_class k a) eqn:E; constructor; assumption.
Qed.

Lemma drop_class_stops k s : stops k (drop_class k s).
Proof.
  induction s as [|a s IH]; simpl; [exact I|].
  destruct (in_class k a) eqn:E; simpl; assumption.
Qed.

(** A split into a run of class [k] and a remainder that stops is the
    split computed by [take_class] and [drop_class]. *)
Lemma split_class_unique k g r :
  all_in k g -> stops k r ->
  take_class k (g ++ r) = g /\ drop_class k (g ++ r) = r.
Proof.
  intros Hg Hr. induction Hg as [|a g Ha Hg IH]; simpl.
  - destruct r as [|b r]; simpl in *; [easy|]. now rewrite Hr.
  - rewrite Ha. destruct IH as [-> ->]. easy.
Qed.

Lemma class_disjoint a :
  in_class ColonSpace a = true -> in_class DigitDot a = false.
Proof.
  destruct a as [[] [] [] [] [] [] [] []]; vm_compute; congruence.
Qed.

(** The capturing group at the end of a pattern takes the longest run. *)
Lemma plus_here_last k gs s :
  plus_here k (fun _ => Some gs) s =
    match take_class k s with
    | [] => None
    | g => Some (g, gs)
    end.
Proof.
  induction s as [|a s IH]; simpl; [reflexivity|].
  destruct (in_class k a); [|reflexivity].
  rewrite IH. destruct (take_class k s); reflexivity.
Qed.

(** When the continuation rejects every text that begins inside the
    class, giving characters back cannot help: the star keeps its
    longest run. *)
Lemma star_here_longest k rest s :
  (forall a s', in_class k a = true -> rest (a :: s') = None) ->
  star_here k rest s = rest (drop_class k s).
Proof.
  intros Hrest. induction s as [|a s IH]; simpl; [reflexivity|].
  destruct (in_class k a) eqn:E; [|reflexivity].
  rewrite IH. destruct (rest (drop_class k s)); [reflexivity|].
  now apply Hrest.
Qed.

Lemma match_here_lits l p s gs :
  match_here (map Lit l ++ p) s = Some gs <->
  exists l' s', s = l' ++ s' /\ same_letters l l' /\ match_here p s' = Some gs.
Proof.
  revert s. induction l as [|c l IH]; intros s; simpl.
  - split.
    + intros H. exists [], s. repeat split; [constructor | exact H].
    + intros (l' & s' & -> & Hl & H). inversion Hl; subst. exact H.
  - destruct s as [|a s].
    + split; [discriminate|].
      intros (l' & s' & Hs & Hl & _). inversion Hl; subst. discriminate.
    + destruct (eq_ignorecase c a) eqn:E.
      * rewrite IH. split.
        -- intros (l' & s' & -> & Hl & H).
           exists (a :: l'), s'. repeat split; [constructor|]; assumption.
        -- intros (l' & s' & Hs & Hl & H). inversion Hl; subst.
           injection Hs as <- ->. eauto.
      * split; [discriminate|].
        intros (l' & s' & Hs & Hl & _). inversion Hl; subst.
        injection Hs as <- ->. congruence.
Qed.

Lemma match_here_number s :
  match_here [Star ColonSpace; GroupPlus DigitDot] s =
    match number_after s with
    | [] => None
    | tok => Some [tok]
    end.
Proof.
  unfold number_after. simpl. rewrite star_here_longest.
  - rewrite plus_here_last. now destruct (take_class _ _).
  - intros a s' Ha. simpl. now rewrite (class_disjoint a Ha).
Qed.

(** Leftmost match: [search] returns the groups of the first suffix of
    the text at which the anchored match succeeds. *)
Lemma search_Some p s gs :
  search p s = Some gs <->
  exists pre suf,
    s = pre ++ suf /\ match_here p suf = Some gs /\
    forall pre' suf', s = pre' ++ suf' -> length pre' < length pre ->
                      match_here p suf' = None.
Proof.
  induction s as [|a s IH]; simpl.
  - destruct (match_here p []) eqn:E.
    + split.
      * intros [= <-]. exists [], []. repeat split; [assumption|].
        simpl. intros. lia.
      * intros (pre & suf & Hs & Hm & _).
        destruct pre, suf; try discriminate. congruence.
    + split; [discriminate|].
      intros (pre & suf & Hs & Hm & _).
      destruct pre, suf; try discriminate. congruence.
  - destruct (match_here p (a :: s)) eqn:E.
    + split.
      * intros [= <-]. exists [], (a :: s). repeat split; [assumption|].
        simpl. intros. lia.
      * intros (pre & suf & Hs & Hm & Hfirst).
        destruct pre as [|b pre].
        -- simpl in Hs. subst suf. congruence.
        -- specialize (Hfirst [] (a :: s) eq_refl). simpl in Hfirst.
           rewrite Hfirst in E by lia. discriminate.
    + rewrite IH. split.
      * intros (pre & suf & -> & Hm & Hfirst).
        exists (a :: pre), suf. repeat split; [assumption|].
        intros pre' suf' Hs Hlen. destruct pre' as [|b pre'].
        -- simpl in Hs. now subst suf'.
        -- injection Hs as <- Hs. apply (Hfirst pre' suf' Hs).
           simpl in Hlen. lia.
      * intros (pre & suf & Hs & Hm & Hfirst).
        destruct pre as [|b pre].
        -- simpl in Hs. subst suf. congruence.
        -- injection Hs as <- ->. exists pre, suf.
           repeat split; [assumption|].
           intros pre' suf' Hs Hlen.
           apply (Hfirst (a :: pre') suf'); [now rewrite Hs|].
           simpl. lia.
Qed.

Lemma search_None p s :
  search p s = None <->
  forall pre suf, s = pre ++ suf -> match_here p suf = None.
Proof.
  induction s as [|a s IH]; simpl.
  - destruct (match_here p []) eqn:E.
    + split; [discriminate|]. intros H. now rewrite (H [] []) in E.
    + split; [|reflexivity]. intros _ pre suf Hs.
      destruct pre, suf; try discriminate. exact E.
  - destruct (match_here p (a :: s)) eqn:E.
    + split; [discriminate|]. intros H. now rewrite (H [] (a :: s)) in E.
    + rewrite IH. split.
      * intros H pre suf Hs. destruct pre as [|b pre].
        -- simpl in Hs. now subst suf.
        -- injection Hs as <- Hs. now apply (H pre suf).
      * intros H pre suf Hs. apply (H (a :: pre) suf). now rewrite Hs.
Qed.

(** The anchored match of a pattern of the table succeeds exactly where a
    labelled number can be read, and captures its token. *)
Lemma match_label_number label s gs :
  match_here (label_number label) s = Some gs <->
  exists tok, gs = [tok] /\ labelled_number_at label s tok.
Proof.
  unfold label_number. rewrite match_here_lits. split.
  - intros (l & s' & -> & Hl & Hm). rewrite match_here_number in Hm.
    destruct (number_after s') as [|a tok] eqn:E; [discriminate|].
    injection Hm as <-. exists (a :: tok). split; [reflexivity|].
    exists l, (take_class ColonSpace s'),
      (drop_class DigitDot (drop_class ColonSpace s')).
    unfold number_after in E. repeat split.
    + rewrite <- E, take_drop_class, take_drop_class. reflexivity.
    + exact Hl.
    + apply take_class_all.
    + discriminate.
    + rewrite <- E. apply take_class_all.
    + apply drop_class_stops.
  - intros (tok & -> & l & sep & rest & -> & Hl & Hsep & Hne & Htok & Hrest).
    exists l, (sep ++ tok ++ rest). repeat split; [exact Hl|].
    rewrite match_here_number. unfold number_after.
    assert (Hstop : stops ColonSpace (tok ++ rest)).
    { destruct tok as [|a tok]; [congruence|]. simpl.
      inversion Htok as [|? ? Ha _]; subst.
      destruct (in_class ColonSpace a) eqn:E; [|reflexivity].
      apply class_disjoint in E. congruence. }
    destruct (split_class_unique ColonSpace sep (tok ++ rest) Hsep Hstop)
      as [_ ->].
    destruct (split_class_unique DigitDot tok rest Htok Hrest) as [-> _].
    destruct tok; [congruence | reflexivity].
Qed.

Lemma match_label_number_None label s :
  match_here (label_number label) s = None <->
  forall tok, ~ labelled_number_at label s tok.
Proof.
  split.
  - intros H tok Htok.
    assert (match_here (label_number label) s = Some [tok]) as E
      by (apply match_label_number; eauto).
    congruence.
  - intros H. destruct (match_here (label_number label) s) as [gs|] eqn:E;
      [|reflexivity].
    apply match_label_number in E as (tok & _ & Htok). now destruct (H tok).
Qed.

Lemma search_label_number label text gs :
  search (label_number label) text = Some gs <->
  exists tok, gs = [tok] /\ first_labelled_number label text tok.
Proof.
  rewrite search_Some. split.
  - intros (pre & suf & -> & Hm & Hfirst).
    apply match_label_number in Hm as (tok & -> & Htok).
    exists tok. split; [reflexivity|]. exists pre, suf.
    repeat split; [assumption|].
    intros pre' suf' tok' Hs Hlen.
    now apply (proj1 (match_label_number_None label suf')), (Hfirst pre').
  - intros (tok & -> & pre & suf & -> & Htok & Hfirst).
    exists pre, suf. repeat split.
    + apply match_label_number. eauto.
    + intros pre' suf' Hs Hlen. apply match_label_number_None.
      intros tok'. now apply (Hfirst pre').
Qed.

Lemma search_label_number_None label text :
  search (label_number label) text = None <->
  forall pre suf tok, text = pre ++ suf -> ~ labelled_number_at label suf tok.
Proof.
  rewrite search_None. split.
  - intros H pre suf tok Hs.
    now apply (proj1 (match_label_number_None label suf)), (H pre).
  - intros H pre suf Hs. apply match_label_number_None.
    intros tok. now apply (H pre).
Qed.

(** At most one token is the first labelled number of a text. *)
Lemma first_labelled_number_unique label text tok tok' :
  first_labelled_number label text tok ->
  first_labelled_number label text tok' -> tok = tok'.
Proof.
  intros H H'.
  assert (search (label_number label) text = Some [tok]) as E
    by (apply search_label_number; eauto).
  assert (search (label_number label) text = Some [tok']) as E'
    by (apply search_label_number; eauto).
  congruence.
Qed.

End ReFacts.


(** ** The reading parser *)

Module ParserFacts.

Import Re ParserSpec ReadingParser ReFacts.

Lemma patterns_parameters :
  patterns = map (fun '(key, label) => (key, label_number label)) parameters.
Proof. reflexivity. Qed.

Lemma parameters_keys_NoDup : NoDup (map fst patterns).
Proof. compute_done. Qed.

(** What one run of the loop leaves in the mapping: a key of the table
    holds the value of its first token, or keeps its former entry when the
    pattern is found nowhere; the other keys are untouched. *)
Lemma parse_loop_Ok ps text m r :
  NoDup (map fst ps) ->
  parse_loop ps text m = Ok r ->
  (forall key pat, (key, pat) ∈ ps ->
     match search pat text with
     | Some gs => exists v, Float.float (group1 gs) = Ok v /\ r !! key = Some v
     | None => r !! key = m !! key
     end) /\
  (forall key, key ∉ map fst ps -> r !! key = m !! key).
Proof.
  revert m. induction ps as [|[k0 pat0] ps IH]; intros m Hnd Hrun.
  - simpl in Hrun. injection Hrun as <-. split.
    + intros key pat Hin. inversion Hin.
    + reflexivity.
  - simpl in Hnd. apply NoDup_cons in Hnd as [Hk0 Hnd]. simpl in Hrun.
    assert (Hstep : exists m',
      parse_loop ps text m' = Ok r /\
      match search pat0 text with
      | Some gs => exists v, Float.float (group1 gs) = Ok v /\ m' = <[k0:=v]> m
      | None => m' = m
      end).
    { destruct (search pat0 text) as [gs|]; [|eauto].
      destruct (Float.float (group1 gs)) as [v|e]; [|discriminate].
      exists (<[k0:=v]> m). eauto. }
    destruct Hstep as (m' & Hrun' & Hm').
    destruct (IH m' Hnd Hrun') as [IHin IHout].
    assert (Hr0 : r !! k0 = m' !! k0) by now apply IHout.
    assert (Hother : forall key, key <> k0 -> m' !! key = m !! key).
    { intros key Hne. destruct (search pat0 text); [|now subst].
      destruct Hm' as (v & _ & ->). now apply lookup_insert_ne. }
    split.
    + intros key pat Hin. apply elem_of_cons in Hin as [[= -> ->]|Hin].
      * destruct (search pat0 text); [|now subst].
        destruct Hm' as (v & Hv & ->). exists v. split; [exact Hv|].
        rewrite Hr0. apply lookup_insert_eq.
      * assert (key <> k0) as Hne.
        { intros ->. apply Hk0. apply list_elem_of_fmap.
          now exists (k0, pat). }
        specialize (IHin key pat Hin).
        destruct (search pat text); [exact IHin|].
        rewrite IHin. now apply Hother.
    + intros key Hout. apply not_elem_of_cons in Hout as [Hne Hout].
      rewrite (IHout key Hout). now apply Hother.
Qed.

(** The loop raises exactly when some token it reaches is not a float
    literal, and the exception is then [ValueError]. *)
Lemma parse_loop_Raise ps text m e :
  parse_loop ps text m = Raise e <->
  e = ValueError /\
  exists key pat gs,
    (key, pat) ∈ ps /\ search pat text = Some gs /\
    Float.float (group1 gs) = Raise ValueError.
Proof.
  assert (Hfloat : forall s e', Float.float s = Raise e' -> e' = ValueError).
  { intros s e'. unfold Float.float.
    destruct (Float.span_digits s) as [ip [|a fp]].
    - destruct (Float.is_nil ip); congruence.
    - destruct (_ && _); congruence. }
  revert m. induction ps as [|[k0 pat0] ps IH]; intros m; simpl.
  - split; [discriminate|]. intros (_ & key & pat & gs & Hin & _).
    inversion Hin.
  - destruct (search pat0 text) as [gs0|] eqn:E0.
    + destruct (Float.float (group1 gs0)) as [v|e0] eqn:F0; simpl.
      * rewrite IH. split.
        -- intros (-> & key & pat & gs & Hin & Hs & Hf).
           split; [reflexivity|]. exists key, pat, gs.
           split; [now apply list_elem_of_further | easy].
        -- intros (-> & key & pat & gs & Hin & Hs & Hf).
           split; [reflexivity|].
           apply elem_of_cons in Hin as [[= -> ->]|Hin]; [congruence|].
           eauto 6.
      * pose proof (Hfloat _ _ F0) as ->. split.
        -- intros [= <-]. split; [reflexivity|].
           exists k0, pat0, gs0. split; [apply list_elem_of_here | easy].
        -- intros (-> & _). reflexivity.
    + rewrite IH. split.
      * intros (-> & key & pat & gs & Hin & Hs & Hf).
        split; [reflexivity|]. exists key, pat, gs.
        split; [now apply list_elem_of_further | easy].
      * intros (-> & key & pat & gs & Hin & Hs & Hf).
        split; [reflexivity|].
        apply elem_of_cons in Hin as [[= -> ->]|Hin]; [congruence|].
        eauto 6.
Qed.

Lemma parameter_pattern key label :
  (key, label) ∈ parameters -> (key, label_number label) ∈ patterns.
Proof.
  intros Hin. rewrite patterns_parameters. apply list_elem_of_fmap.
  now exists (key, label).
Qed.

(** Every value of the returned mapping was read by [float] from a
    token. *)
Lemma parse_value_is_float (text : string) r key v :
  parse_extracted_text text = Ok r -> r !! key = Some v ->
  exists tok, Float.float tok = Ok v.
Proof.
  intros Hrun Hv. unfold parse_extracted_text in Hrun.
  destruct (parse_loop_Ok _ _ _ _ parameters_keys_NoDup Hrun) as [Hin Hout].
  destruct (decide (key ∈ map fst patterns)) as [Hk|Hk].
  - apply list_elem_of_fmap in Hk as ([key' pat] & -> & Hk). simpl in Hv.
    specialize (Hin key' pat Hk).
    destruct (search pat (list_ascii_of_string text)) as [gs|].
    + destruct Hin as (v' & Hf & Hr). exists (group1 gs). congruence.
    + rewrite Hin, lookup_empty in Hv. discriminate.
  - rewrite (Hout key Hk), lookup_empty in Hv. discriminate.
Qed.

(** The classes and the case folding of the matcher are those written out
    in [PatternWords]. *)
Lemma case_table :
  forallb
    (fun c =>
       forallb
         (fun a =>
            Bool.eqb (eq_ignorecase c a)
              (bool_decide (PatternWords.same_letter c a)))
         (map ascii_of_nat (seq 0 256)))
    (map ascii_of_nat (seq 0 256)) = true.
Proof. vm_compute. reflexivity. Qed.

Lemma ascii_listed a : In a (map ascii_of_nat (seq 0 256)).
Proof.
  apply in_map_iff. exists (nat_of_ascii a).
  split; [apply ascii_nat_embedding|].
  apply in_seq. pose proof (nat_ascii_bounded a). lia.
Qed.

Lemma eq_ignorecase_words c a :
  eq_ignorecase c a = true <-> PatternWords.same_letter c a.
Proof.
  pose proof case_table as H. rewrite forallb_forall in H.
  specialize (H c (ascii_listed c)). rewrite forallb_forall in H.
  specialize (H a (ascii_listed a)). apply Bool.eqb_prop in H. rewrite H.
  apply bool_decide_eq_true.
Qed.

Lemma in_class_words k a :
  in_class k a = true <->
  a ∈ match k with
      | ColonSpace => PatternWords.colon_or_space
      | DigitDot => PatternWords.digit_or_dot
      end.
Proof.
  assert (in_class k a =
          bool_decide (a ∈ match k with
                           | ColonSpace => PatternWords.colon_or_space
                           | DigitDot => PatternWords.digit_or_dot
                           end)) as ->
    by (destruct k, a as [[] [] [] [] [] [] [] []]; vm_compute; reflexivity).
  apply bool_decide_eq_true.
Qed.

Lemma labelled_number_words label s tok :
  labelled_number_at label s tok <-> PatternWords.number_read_at label s tok.
Proof.
  unfold labelled_number_at, PatternWords.number_read_at, same_letters,
    all_in, stops.
  split; intros (l & sep & rest & Hs & Hl & Hsep & Hne & Htok & Hrest);
    exists l, sep, rest; (split; [exact Hs|]); (split; [|split; [|split;
      [exact Hne|split]]]).
  - clear - Hl. induction Hl; constructor; try assumption.
    now apply eq_ignorecase_words.
  - clear - Hsep. induction Hsep; constructor; try assumption.
    now apply (in_class_words ColonSpace).
  - clear - Htok. induction Htok; constructor; try assumption.
    now apply (in_class_words DigitDot).
  - intros a rest' -> Hin. apply (in_class_words DigitDot) in Hin. congruence.
  - clear - Hl. induction Hl; constructor; try assumption.
    now apply eq_ignorecase_words.
  - clear - Hsep. induction Hsep; constructor; try assumption.
    now apply (in_class_words ColonSpace).
  - clear - Htok. induction Htok; constructor; try assumption.
    now apply (in_class_words DigitDot).
  - destruct rest as [|a rest']; [exact I|].
    destruct (in_class DigitDot a) eqn:E; [|reflexivity].
    apply (in_class_words DigitDot) in E. now destruct (Hrest a rest' eq_refl).
Qed.

Lemma first_number_words label text tok :
  first_labelled_number label text tok <->
  PatternWords.first_number_read label text tok.
Proof.
  unfold first_labelled_number, PatternWords.first_number_read.
  split; intros (pre & suf & Ht & Hat & Hfirst); exists pre, suf;
    (split; [exact Ht|]); (split; [now apply labelled_number_words|]).
  - intros pre' suf' tok' Ht' Hlt Hat'.
    apply (Hfirst pre' suf' tok' Ht' Hlt). now apply labelled_number_words.
  - intros pre' suf' tok' Ht' Hlt Hat'.
    apply (Hfirst pre' suf' tok' Ht' Hlt). now apply labelled_number_words.
Qed.



(** C6. On the text "pH: 7.2." the pattern for pH captures the token
    "7.2.", which is not a float literal, and the parser raises
    [ValueError] instead of leaving pH out.  In general the parser raises
    exactly when the first token of some parameter is not a float literal.
    A parameter whose label is absent is left out, and the empty text
    gives the empty mapping. *)
Theorem parse_raises_on_malformed_token :
  parse_extracted_text "pH: 7.2." = Raise ValueError /\
  first_labelled_number "pH" (list_ascii_of_string "pH: 7.2.")
    (list_ascii_of_string "7.2.") /\
  Float.float (list_ascii_of_string "7.2.") = Raise ValueError /\
  (forall (text : string) e,
     parse_extracted_text text = Raise e <->
     e = ValueError /\
     exists key label tok,
       (key, label) ∈ parameters /\
       first_labelled_number label (list_ascii_of_string text) tok /\
       Float.float tok = Raise ValueError) /\
  parse_extracted_text "" = Ok ∅.
Proof.
  split; [vm_compute; reflexivity|].
  split.
  { assert (search (label_number "pH") (list_ascii_of_string "pH: 7.2.")
            = Some [list_ascii_of_string "7.2."]) as E
      by (vm_compute; reflexivity).
    apply search_label_number in E as (tok & [= <-] & Htok). exact Htok. }
  split; [vm_compute; reflexivity|].
  split; [|vm_compute; reflexivity].
  intros text e. unfold parse_extracted_text. rewrite parse_loop_Raise.
  split.
  - intros (-> & key & pat & gs & Hin & Hs & Hf). split; [reflexivity|].
    rewrite patterns_parameters in Hin.
    apply list_elem_of_fmap in Hin as ([key' label] & [= -> ->] & Hin).
    apply search_label_number in Hs as (tok & -> & Htok).
    exists key', label, tok. easy.
  - intros (-> & key & label & tok & Hin & Htok & Hf). split; [reflexivity|].
    exists key, (label_number label), [tok].
    split; [now apply parameter_pattern|].
    split; [|exact Hf]. apply search_label_number. eauto.
Qed.

Lemma parse_raises_on_malformed_token_witness :
  parse_extracted_text "Nitrates .. 4" = Raise ValueError /\
  exists key label tok,
    (key, label) ∈ parameters /\
    first_labelled_number label (list_ascii_of_string "Nitrates .. 4") tok /\
    Float.float tok = Raise ValueError.
Proof.
  assert (parse_extracted_text "Nitrates .. 4" = Raise ValueError) as Hrun
    by (vm_compute; reflexivity).
  split; [exact Hrun|].
  destruct parse_raises_on_malformed_token as (_ & _ & _ & Hgen & _).
  apply (proj1 (Hgen "Nitrates .. 4" ValueError) Hrun).
Defined.

End ParserFacts.

(** ** The zone resolver *)

Module GeoFacts.

Import GeoResolver.

Lemma Qltb_lt x y : Qltb x y = true <-> (x < y)%Q.
Proof.
  unfold Qltb. rewrite negb_true_iff. split.
  - intros H. apply Qnot_le_lt. intros Hle.
    apply Qle_bool_iff in Hle. congruence.
  - intros H. destruct (Qle_bool y x) eqn:E; [|reflexivity].
    apply Qle_bool_iff in E. now apply Qlt_not_le in H.
Qed.

Lemma Qltb_ge x y : Qltb x y = false <-> (y <= x)%Q.
Proof.
  unfold Qltb. rewrite negb_false_iff. apply Qle_bool_iff.
Qed.

Section Nearest.

Variable d : coords -> coords -> Q.
Variables lat lon : Q.

Lemma loop_state_step seen m n z0 c0 :
  loop_state d (lat, lon) seen m n ->
  let distance := d (lat, lon) c0 in
  if below distance m
  then loop_state d (lat, lon) (seen ++ [(z0, c0)]) (Dist distance) (Some z0)
  else loop_state d (lat, lon) (seen ++ [(z0, c0)]) m n.
Proof.
  intros [(-> & -> & ->) | (z & -> & i & c & -> & Hi & Hle & Hlt)]; simpl.
  - right. exists z0. split; [reflexivity|]. exists 0, c0. repeat split.
    + intros [|j] z' c' Hj; [|discriminate]. injection Hj as <- <-.
      apply Qle_refl.
    + intros j z' c' Hj. lia.
  - destruct (Qltb (d (lat, lon) c0) (d (lat, lon) c)) eqn:E.
    + apply Qltb_lt in E. right. exists z0. split; [reflexivity|].
      exists (length seen), c0. repeat split.
      * rewrite lookup_app_r, Nat.sub_diag by lia. reflexivity.
      * intros j z' c' Hj. apply lookup_snoc_Some in Hj as [[_ Hj]|[_ Hj]].
        -- apply Qlt_le_weak. eapply Qlt_le_trans; [exact E|]. eauto.
        -- injection Hj as <- <-. apply Qle_refl.
      * intros j z' c' Hlen Hj.
        rewrite lookup_app_l in Hj by exact Hlen.
        eapply Qlt_le_trans; [exact E|]. eauto.
    + apply Qltb_ge in E. right. exists z. split; [reflexivity|].
      exists i, c. pose proof (lookup_lt_Some _ _ _ Hi) as Hlen.
      repeat split.
      * now rewrite lookup_app_l.
      * intros j z' c' Hj. apply lookup_snoc_Some in Hj as [[_ Hj]|[_ Hj]].
        -- eauto.
        -- now injection Hj as <- <-.
      * intros j z' c' Hji Hj.
        rewrite lookup_app_l in Hj by lia. eauto.
Qed.

Lemma nearest_loop_state items : forall seen m n,
  loop_state d (lat, lon) seen m n ->
  exists m', loop_state d (lat, lon) (seen ++ items) m'
               (nearest_loop d items lat lon m n).
Proof.
  induction items as [|[z0 c0] items IH]; intros seen m n Hst; simpl.
  - rewrite app_nil_r. eauto.
  - pose proof (loop_state_step seen m n z0 c0 Hst) as Hstep. simpl in Hstep.
    replace (seen ++ (z0, c0) :: items) with ((seen ++ [(z0, c0)]) ++ items)
      by now rewrite <- app_assoc.
    destruct (below (d (lat, lon) c0) m); now apply IH.
Qed.

(** On a table that is not empty the search returns the key of the first
    entry at minimal distance. *)
Lemma get_nearest_zipcode_in_first table :
  table <> [] ->
  exists z, get_nearest_zipcode_in d table lat lon = Some z /\
            first_nearest d table (lat, lon) z.
Proof.
  intros Hne. unfold get_nearest_zipcode_in.
  destruct (nearest_loop_state table [] Inf None) as [m' Hst].
  { left. easy. }
  simpl in Hst. destruct Hst as [(-> & _) | (z & -> & i & c & _ & Hrest)].
  - congruence.
  - exists z. split; [reflexivity|]. exists i, c. exact Hrest.
Qed.

Lemma get_nearest_zipcode_in_tie :
  get_nearest_zipcode_in flat_distance2 twin_table 0 0 = Some "east".
Proof. vm_compute. reflexivity. Qed.

Lemma get_nearest_zipcode_in_empty :
  get_nearest_zipcode_in d [] lat lon = None.
Proof. reflexivity. Qed.

End Nearest.

Lemma raise_for_status_error r :
  (400 <= status_code r < 600)%Z ->
  raise_for_status r = Raise (RequestException HTTPError).
Proof.
  intros [H1 H2]. unfold raise_for_status.
  apply Z.leb_le in H1. apply Z.ltb_lt in H2. now rewrite H1, H2.
Qed.

Lemma raise_for_status_ok r :
  ~ (400 <= status_code r < 600)%Z -> raise_for_status r = Ok tt.
Proof.
  intros H. unfold raise_for_status.
  destruct (400 <=? status_code r)%Z eqn:E1; [|reflexivity].
  destruct (status_code r <? 600)%Z eqn:E2; [|reflexivity].
  apply Z.leb_le in E1. apply Z.ltb_lt in E2. lia.
Qed.

Lemma py_in_obj_Some key o x :
  o !! key = Some x -> py_in key (JObj o) = Ok true.
Proof. intros H. simpl. rewrite H. reflexivity. Qed.

Lemma py_in_obj_None key o :
  o !! key = None -> py_in key (JObj o) = Ok false.
Proof. intros H. simpl. rewrite H. reflexivity. Qed.

Section Resolve.

Variable geodesic_miles : coords -> coords -> Q.
Variable requests_get : get_call -> result response.
Variables lat lon : Q.

Abbreviation resolve :=
  (get_zipcode_from_coordinates geodesic_miles requests_get).
Abbreviation nearest := (nearest_value geodesic_miles lat lon).

(** An exception of [requests] raised by the call itself. *)
Lemma resolve_exception e :
  requests_get (reverse_call lat lon) = Raise (RequestException e) ->
  resolve lat lon = (Ok nearest, [warning_could_not_connect e]).
Proof.
  intros H. unfold get_zipcode_from_coordinates, try_remote.
  now rewrite H.
Qed.

Lemma resolve_error_status resp :
  requests_get (reverse_call lat lon) = Ok resp ->
  (400 <= status_code resp < 600)%Z ->
  resolve lat lon = (Ok nearest, [warning_could_not_connect HTTPError]).
Proof.
  intros H Hst. unfold get_zipcode_from_coordinates, try_remote.
  rewrite H. simpl. now rewrite (raise_for_status_error _ Hst).
Qed.

Lemma resolve_not_json resp :
  requests_get (reverse_call lat lon) = Ok resp ->
  ~ (400 <= status_code resp < 600)%Z -> body resp = None ->
  resolve lat lon = (Ok nearest, [warning_could_not_connect JSONDecodeError]).
Proof.
  intros H Hst Hb. unfold get_zipcode_from_coordinates, try_remote.
  rewrite H. simpl. rewrite (raise_for_status_ok _ Hst). simpl.
  unfold response_json. now rewrite Hb.
Qed.

Lemma resolve_data resp data :
  requests_get (reverse_call lat lon) = Ok resp ->
  ~ (400 <= status_code resp < 600)%Z -> body resp = Some data ->
  try_remote geodesic_miles requests_get lat lon =
    (has_address ← py_in "address" data;
     if (has_address : bool) then
       address ← py_getitem data "address";
       has_postcode ← py_in "postcode" address;
       if (has_postcode : bool) then
         address' ← py_getitem data "address";
         py_getitem address' "postcode"
       else Ok nearest
     else Ok nearest).
Proof.
  intros H Hst Hb. unfold try_remote.
  rewrite H. simpl. rewrite (raise_for_status_ok _ Hst). simpl.
  unfold response_json. now rewrite Hb.
Qed.

Lemma resolve_no_address resp o :
  requests_get (reverse_call lat lon) = Ok resp ->
  ~ (400 <= status_code resp < 600)%Z -> body resp = Some (JObj o) ->
  o !! "address" = None ->
  resolve lat lon = (Ok nearest, []).
Proof.
  intros H Hst Hb Ha. unfold get_zipcode_from_coordinates.
  rewrite (resolve_data _ _ H Hst Hb), (py_in_obj_None _ _ Ha).
  reflexivity.
Qed.

Lemma resolve_no_postcode resp o a :
  requests_get (reverse_call lat lon) = Ok resp ->
  ~ (400 <= status_code resp < 600)%Z -> body resp = Some (JObj o) ->
  o !! "address" = Some (JObj a) -> a !! "postcode" = None ->
  resolve lat lon = (Ok nearest, []).
Proof.
  intros H Hst Hb Ha Hp. unfold get_zipcode_from_coordinates.
  rewrite (resolve_data _ _ H Hst Hb), (py_in_obj_Some _ _ _ Ha).
  simpl. rewrite Ha. simpl. rewrite Hp. reflexivity.
Qed.

Lemma resolve_postcode resp o a v :
  requests_get (reverse_call lat lon) = Ok resp ->
  ~ (400 <= status_code resp < 600)%Z -> body resp = Some (JObj o) ->
  o !! "address" = Some (JObj a) -> a !! "postcode" = Some v ->
  resolve lat lon = (Ok v, []).
Proof.
  intros H Hst Hb Ha Hp. unfold get_zipcode_from_coordinates.
  rewrite (resolve_data _ _ H Hst Hb), (py_in_obj_Some _ _ _ Ha).
  repeat (simpl; rewrite ?Ha, ?Hp).
  now destruct v as [| | | | |]; try destruct e.
Qed.

Lemma resolve_failure :
  remote_failure (requests_get (reverse_call lat lon)) ->
  fst (resolve lat lon) = Ok nearest.
Proof.
  intros [e H | resp H Hst | resp H Hst Hb | resp o H Hst Hb Ha
         | resp o a H Hst Hb Ha Hp].
  - now rewrite (resolve_exception e H).
  - now rewrite (resolve_error_status resp H Hst).
  - now rewrite (resolve_not_json resp H Hst Hb).
  - now rewrite (resolve_no_address resp o H Hst Hb Ha).
  - now rewrite (resolve_no_postcode resp o a H Hst Hb Ha Hp).
Qed.

(** With the table of the source the search returns one of its seven
    keys. *)
Lemma nearest_value_known :
  exists z, nearest = JStr z /\ z ∈ map fst known_zipcode_coords /\ z <> "".
Proof.
  destruct (get_nearest_zipcode_in_first geodesic_miles lat lon
              known_zipcode_coords) as (z & Hz & i & c & Hi & _);
    [discriminate|].
  exists z. unfold nearest_value, get_nearest_zipcode. rewrite Hz.
  split; [reflexivity|].
  assert (z ∈ map fst known_zipcode_coords) as Hin.
  { apply list_elem_of_fmap. exists (z, c). split; [reflexivity|].
    apply list_elem_of_lookup. eauto. }
  split; [exact Hin|]. intros ->. revert Hin. compute_done.
Qed.

End Resolve.




(** C3, as amended.  Every exception of [requests] (no connection,
    timeout, error status, body that is not JSON) is turned into one
    warning and the result of the nearest-zone search; a JSON object with
    no "address" key, and a JSON object whose "address" is an object with
    no "postcode" key, give the same result without a warning; a JSON
    object whose "address" is an object with a "postcode" key gives the
    value under that key as it is; and with the table of the source the
    nearest-zone search returns one of its seven keys, none of them
    empty. *)
Theorem resolve_falls_back_or_returns_postcode
    (geodesic_miles : coords -> coords -> Q)
    (requests_get : get_call -> result response) (lat lon : Q) :
  (forall e,
     requests_get (reverse_call lat lon) = Raise (RequestException e) ->
     get_zipcode_from_coordinates geodesic_miles requests_get lat lon
       = (Ok (nearest_value geodesic_miles lat lon),
          [warning_could_not_connect e])) /\
  (forall resp,
     requests_get (reverse_call lat lon) = Ok resp ->
     ((400 <= status_code resp < 600)%Z ->
      get_zipcode_from_coordinates geodesic_miles requests_get lat lon
        = (Ok (nearest_value geodesic_miles lat lon),
           [warning_could_not_connect HTTPError])) /\
     (~ (400 <= status_code resp < 600)%Z ->
      (body resp = None ->
       get_zipcode_from_coordinates geodesic_miles requests_get lat lon
         = (Ok (nearest_value geodesic_miles lat lon),
            [warning_could_not_connect JSONDecodeError])) /\
      (forall o,
         body resp = Some (JObj o) ->
         (o !! "address" = None ->
          get_zipcode_from_coordinates geodesic_miles requests_get lat lon
            = (Ok (nearest_value geodesic_miles lat lon), [])) /\
         (forall a,
            o !! "address" = Some (JObj a) ->
            (a !! "postcode" = None ->
             get_zipcode_from_coordinates geodesic_miles requests_get lat lon
               = (Ok (nearest_value geodesic_miles lat lon), [])) /\
            (forall v,
               a !! "postcode" = Some v ->
               get_zipcode_from_coordinates geodesic_miles requests_get
                 lat lon = (Ok v, [])))))) /\
  (exists z,
     nearest_value geodesic_miles lat lon = JStr z /\
     z ∈ map fst known_zipcode_coords /\ z <> "").
Proof.
  split; [|split].
  - intros e. apply resolve_exception.
  - intros resp H. split; [now apply resolve_error_status|].
    intros Hst. split; [now apply resolve_not_json|].
    intros o Hb. split; [now apply (resolve_no_address _ _ _ _ resp o)|].
    intros a Ha. split.
    + now apply (resolve_no_postcode _ _ _ _ resp o a).
    + intros v. now apply (resolve_postcode _ _ _ _ resp o a v).
  - apply nearest_value_known.
Qed.

Lemma resolve_falls_back_or_returns_postcode_witness :
  offline (reverse_call 37.35 (-121.90)) = Raise (RequestException ConnectionError) /\
  get_zipcode_from_coordinates flat_distance2 offline 37.35 (-121.90)
    = (Ok (nearest_value flat_distance2 37.35 (-121.90)),
       [warning_could_not_connect ConnectionError]).
Proof.
  split; [reflexivity|].
  apply (proj1 (resolve_falls_back_or_returns_postcode flat_distance2 offline
                  37.35 (-121.90)) ConnectionError).
  reflexivity.
Defined.

(** C3 as stated fails: an answer that is not a JSON object, here [null],
    makes the resolver raise [TypeError], and an address whose postcode is
    the empty string is returned as it is. *)
Lemma resolve_raises_or_returns_empty :
  get_zipcode_from_coordinates flat_distance2 (answers JNull) 37.35 (-121.90)
    = (Raise TypeError, []) /\
  get_zipcode_from_coordinates flat_distance2 (answers empty_postcode)
    37.35 (-121.90) = (Ok (JStr ""), []).
Proof. split; vm_compute; reflexivity. Qed.

(** C9, as amended.  The call to the service is issued without a
    timeout argument; and when the call ends in a timeout exception, or in
    any other exception of [requests], the nearest-zone search runs in the
    same call and its result is returned, with a warning. *)
Theorem remote_call_has_no_timeout
    (geodesic_miles : coords -> coords -> Q)
    (requests_get : get_call -> result response) (lat lon : Q) :
  call_timeout (reverse_call lat lon) = None /\
  (forall e,
     requests_get (reverse_call lat lon) = Raise (RequestException e) ->
     get_zipcode_from_coordinates geodesic_miles requests_get lat lon
       = (Ok (nearest_value geodesic_miles lat lon),
          [warning_could_not_connect e])).
Proof.
  split; [reflexivity|]. intros e. apply resolve_exception.
Qed.

Lemma remote_call_has_no_timeout_witness :
  times_out (reverse_call 37.35 (-121.90)) = Raise (RequestException Timeout) /\
  get_zipcode_from_coordinates flat_distance2 times_out 37.35 (-121.90)
    = (Ok (JStr "95110"), [warning_could_not_connect Timeout]).
Proof.
  split; [reflexivity|].
  rewrite (proj2 (remote_call_has_no_timeout flat_distance2 times_out
                    37.35 (-121.90)) Timeout eq_refl).
  vm_compute. reflexivity.
Defined.

(** C9 as stated fails: the call carries no timeout at all. *)
Lemma remote_call_timeout_unset :
  call_timeout (reverse_call 37.35 (-121.90)) = None /\
  ~ exists t, call_timeout (reverse_call 37.35 (-121.90)) = Some t /\ (t <= 5)%Q.
Proof. split; [reflexivity|]. intros (t & H & _). discriminate. Qed.

End GeoFacts.

(** ** Submission and deletion *)

Module InputFacts.

Import ManualInput ReadingParser.

Lemma submit_data_rejects zipcode readings now file :
  zipcode = "" \/ readings = ∅ ->
  submit_data zipcode readings now file =
    (file,
     st_error "Please ensure all data fields are filled out, including a valid zipcode.").
Proof.
  intros H. unfold submit_data.
  destruct (bool_decide (zipcode <> "")) eqn:Ez; [|reflexivity].
  destruct (bool_decide (readings <> ∅)) eqn:Er; [|reflexivity].
  apply bool_decide_eq_true in Ez, Er. tauto.
Qed.

Lemma submit_data_accepts zipcode readings now file :
  zipcode <> "" -> readings <> ∅ ->
  submit_data zipcode readings now file =
    (Some (load_data file ++ [new_row zipcode readings now]),
     st_success "Data submitted successfully.").
Proof.
  intros Hz Hr. unfold submit_data.
  now rewrite !bool_decide_eq_true_2.
Qed.

Lemma new_row_lookup zipcode readings now :
  new_row zipcode readings now !! "Zipcode" = Some (Text zipcode) /\
  new_row zipcode readings now !! "Date" = Some (Time now) /\
  forall key, key <> "Zipcode" -> key <> "Date" ->
              new_row zipcode readings now !! key = Num <$> readings !! key.
Proof.
  unfold new_row. repeat split.
  - rewrite lookup_insert_ne by discriminate. apply lookup_insert_eq.
  - apply lookup_insert_eq.
  - intros key Hz Hd. rewrite !lookup_insert_ne by congruence.
    apply lookup_fmap.
Qed.

(** What the guard [if zipcode and readings] does get right.  The
    submission is rejected, with the file left as it was, when the zone is
    empty and when the readings mapping is empty.  A record with a zone
    that is not empty and all five readings present is accepted: it is
    appended to the frame that was loaded, with the zone, the current
    timestamp and the five readings. *)
Lemma submit_guard_zone_and_readings
    (zipcode : string) (readings : gmap string Q) (now : Z)
    (file : data_file) :
  (zipcode = "" \/ readings = ∅ ->
   submit_data zipcode readings now file =
     (file,
      st_error "Please ensure all data fields are filled out, including a valid zipcode.")) /\
  (zipcode <> "" ->
   (forall key, key ∈ required -> is_Some (readings !! key)) ->
   submit_data zipcode readings now file =
     (Some (load_data file ++ [new_row zipcode readings now]),
      st_success "Data submitted successfully.") /\
   new_row zipcode readings now !! "Zipcode" = Some (Text zipcode) /\
   new_row zipcode readings now !! "Date" = Some (Time now) /\
   forall key, key ∈ required ->
     new_row zipcode readings now !! key = Num <$> readings !! key).
Proof.
  split; [apply submit_data_rejects|].
  intros Hz Hall.
  assert (readings <> ∅) as Hr.
  { intros ->. destruct (Hall "pH") as [v Hv]; [apply list_elem_of_here|].
    rewrite lookup_empty in Hv. discriminate. }
  split; [now apply submit_data_accepts|].
  destruct (new_row_lookup zipcode readings now) as (H1 & H2 & H3).
  repeat split; [exact H1 | exact H2 |].
  intros key Hkey. apply H3; intros ->; revert Hkey; compute_done.
Qed.

Lemma submit_guard_zone_and_readings_witness :
  "95110" <> "" /\
  (forall key, key ∈ required -> is_Some (complete_readings !! key)) /\
  submit_data "95110" complete_readings 1730000000 None =
    (Some [new_row "95110" complete_readings 1730000000],
     st_success "Data submitted successfully.").
Proof.
  assert ("95110" <> "") as Hz by discriminate.
  assert (forall key, key ∈ required -> is_Some (complete_readings !! key))
    as Hall.
  { intros key Hkey. unfold required in Hkey.
    each_entry Hkey ltac:(vm_compute; eauto). }
  split; [exact Hz|]. split; [exact Hall|].
  exact (proj1 (proj2 (submit_guard_zone_and_readings
                         "95110" complete_readings 1730000000 None)
                  Hz Hall)).
Defined.

(** C2.  The code at the failing input: the mapping the parser reads
    from "pH: 7.2 Chlorine 1.5mg/L" lacks Hardness, Nitrates and Lead, and
    the submission with zone "95110" stores it all the same, with the
    message of success and not the error that asks for all data fields;
    the stored row has no cell for the three parameters. *)
Theorem submit_accepts_partial_readings :
  parse_extracted_text "pH: 7.2 Chlorine 1.5mg/L" = Ok partial_readings /\
  partial_readings !! "Hardness (mg/L as CaCO3)" = None /\
  partial_readings !! "Nitrates (mg/L)" = None /\
  partial_readings !! "Lead (µg/L)" = None /\
  submit_data "95110" partial_readings 1730000000 None =
    (Some [new_row "95110" partial_readings 1730000000],
     st_success "Data submitted successfully.") /\
  new_row "95110" partial_readings 1730000000 !! "Hardness (mg/L as CaCO3)"
    = None /\
  new_row "95110" partial_readings 1730000000 !! "Nitrates (mg/L)" = None /\
  new_row "95110" partial_readings 1730000000 !! "Lead (µg/L)" = None.
Proof. repeat split; vm_compute; reflexivity. Qed.

(** C10.  The code at the failing input: a file with two records, of
    zipcodes "01234" and "95110", and the Delete button of record 1.  The
    loader of the input page reads the column as integers, so that the
    record that survives is written back with the zipcode "1234": one of
    its fields is modified.  The loader of the dashboard reads the same
    column as the text it is.  In general, on a column written with digits
    only, the button writes back, for each record that survives, the
    decimal notation of the number its zipcode was read as. *)
Theorem delete_rewrites_surviving_zipcode :
  read_zipcode_column ["01234"; "95110"] = Some [1234; 95110]%Z /\
  delete_entry 1 ["01234"; "95110"] =
    Some (Ok (["1234"], st_success "Entry deleted successfully.")) /\
  Dashboard.load_zipcodes ["01234"; "95110"] = ["01234"; "95110"] /\
  (forall cells column i,
     read_zipcode_column cells = Some column -> i < length cells ->
     delete_entry i cells =
       Some (Ok (map (fun s => pretty (Float.digits_val (list_ascii_of_string s)))
                   (delete i cells),
                 st_success "Entry deleted successfully."))).
Proof.
  do 3 (split; [vm_compute; reflexivity|]).
  intros cells column i Hread Hi. unfold delete_entry. rewrite Hread.
  unfold read_zipcode_column in Hread.
  destruct (forallb is_integer_text cells); [|discriminate].
  injection Hread as <-. unfold drop_reset. rewrite length_map.
  apply Nat.ltb_lt in Hi. rewrite Hi. simpl.
  unfold write_zipcode_column.
  change (@map) with (@fmap list _).
  now rewrite <- list_fmap_delete, <- list_fmap_compose.
Qed.

Lemma digit_val_nonneg c : Re.is_digit c = true -> (0 <= Float.digit_val c)%Z.
Proof.
  unfold Re.is_digit, Float.digit_val. intros H.
  apply andb_true_iff in H as [H _]. apply Nat.leb_le in H. lia.
Qed.

Lemma digits_fold_nonneg s : forall acc,
  (0 <= acc)%Z -> Forall (fun c => Re.is_digit c = true) s ->
  (0 <= fold_left (fun acc c => 10 * acc + Float.digit_val c) s acc)%Z.
Proof.
  induction s as [|c s IH]; intros acc Hacc Hs; simpl; [exact Hacc|].
  inversion Hs as [|? ? Hc Hs']; subst. apply IH; [|assumption].
  pose proof (digit_val_nonneg c Hc). lia.
Qed.

Lemma digits_val_nonneg s :
  Forall (fun c => Re.is_digit c = true) s -> (0 <= Float.digits_val s)%Z.
Proof. apply digits_fold_nonneg. lia. Qed.

Lemma span_digits_digits s ip r :
  Float.span_digits s = (ip, r) -> Forall (fun c => Re.is_digit c = true) ip.
Proof.
  revert ip r. induction s as [|a s IH]; intros ip r; simpl.
  - intros [= <- <-]. constructor.
  - destruct (Re.is_digit a) eqn:E.
    + destruct (Float.span_digits s) as [ds r']. intros [= <- <-].
      constructor; [exact E|]. now apply (IH ds r').
    + intros [= <- <-]. constructor.
Qed.

(** A token that [float] accepts is read as a number that is not
    negative. *)
Lemma float_nonneg s v : Float.float s = Ok v -> (0 <= v)%Q.
Proof.
  unfold Float.float. destruct (Float.span_digits s) as [ip r] eqn:E.
  pose proof (digits_val_nonneg ip (span_digits_digits _ _ _ E)) as Hip.
  destruct r as [|a fp].
  - destruct (Float.is_nil ip); [discriminate|]. intros [= <-].
    rewrite Qred_correct. unfold Qle. simpl. lia.
  - destruct (Ascii.eqb a "." && forallb Re.is_digit fp
              && negb (Float.is_nil ip && Float.is_nil fp)) eqn:C;
      [|discriminate].
    intros [= <-]. rewrite Qred_correct.
    apply andb_true_iff in C as [C _]. apply andb_true_iff in C as [_ C].
    assert (0 <= Float.digits_val fp)%Z as Hfp.
    { apply digits_val_nonneg. apply Forall_forall. intros c Hc.
      rewrite forallb_forall in C. apply C. now apply list_elem_of_In. }
    unfold Qle. simpl.
    assert (0 <= 10 ^ Z.of_nat (length fp))%Z by (apply Z.pow_nonneg; lia).
    nia.
Qed.

(** C8. Every value in a mapping returned by the parser is at least 0,
    every widget of the manual flow has 0 as its lower bound, and so every
    value of the manual readings, which Streamlit keeps inside the bounds
    of its widget, is at least 0. *)
Theorem readings_are_nonnegative :
  (forall (text : string) (readings : gmap string Q),
     parse_extracted_text text = Ok readings ->
     forall key v, readings !! key = Some v -> (0 <= v)%Q) /\
  (forall key w, (key, w) ∈ manual_inputs -> (min_value w == 0)%Q) /\
  (forall st_number_input : number_input -> Q,
     within_bounds st_number_input ->
     forall key v,
       manual_readings st_number_input !! key = Some v -> (0 <= v)%Q).
Proof.
  split; [|split].
  - intros text readings Hrun key v Hv.
    destruct (ParserFacts.parse_value_is_float _ _ _ _ Hrun Hv) as [tok Hf].
    exact (float_nonneg _ _ Hf).
  - intros key w Hin. unfold manual_inputs in Hin.
    each_entry Hin ltac:(reflexivity).
  - intros st_number_input Hb key v Hv. unfold manual_readings in Hv.
    apply elem_of_list_to_map_2 in Hv.
    apply list_elem_of_fmap in Hv as ([key' w] & [= -> ->] & Hin).
    apply Qle_trans with (min_value w); [|apply (Hb key' w Hin)].
    unfold manual_inputs in Hin.
    each_entry Hin ltac:(vm_compute; discriminate).
Qed.

Lemma readings_are_nonnegative_witness :
  parse_extracted_text "pH: 7.2 Chlorine 1.5mg/L" = Ok partial_readings /\
  partial_readings !! "pH" = Some (Qred 7.2) /\
  (0 <= Qred 7.2)%Q /\
  within_bounds max_value /\
  manual_readings max_value !! "Lead (µg/L)" = Some 100.0%Q /\
  (0 <= 100.0)%Q.
Proof.
  destruct readings_are_nonnegative as (Hparse & _ & Hmanual).
  assert (parse_extracted_text "pH: 7.2 Chlorine 1.5mg/L" = Ok partial_readings)
    as Hrun by (vm_compute; reflexivity).
  assert (partial_readings !! "pH" = Some (Qred 7.2)) as Hv
    by (vm_compute; reflexivity).
  assert (within_bounds max_value) as Hb.
  { intros key w Hin. unfold manual_inputs in Hin.
    each_entry Hin ltac:(split; vm_compute; discriminate). }
  assert (manual_readings max_value !! "Lead (µg/L)" = Some 100.0%Q) as Hm
    by (vm_compute; reflexivity).
  split; [exact Hrun|]. split; [exact Hv|].
  split; [exact (Hparse _ _ Hrun _ _ Hv)|].
  split; [exact Hb|]. split; [exact Hm|].
  exact (Hmanual max_value Hb _ _ Hm).
Defined.

End InputFacts.

(** ** The compliance check *)

Module ComplianceFacts.

Import HomePage.

(** The check puts in range the numbers between the two bounds, and
    neither NaN nor an infinity. *)
Lemma is_within_safe_range_iff value min_val max_val :
  is_within_safe_range value min_val max_val = true <->
  exists q, value = Finite q /\ (min_val <= q <= max_val)%Q.
Proof.
  unfold is_within_safe_range. destruct value as [q| | |]; simpl.
  - rewrite andb_true_iff, !Qle_bool_iff. split.
    + intros H. now exists q.
    + now intros (q' & [= <-] & H).
  - split; [discriminate | now intros (q & H & _)].
  - split; [discriminate | now intros (q & H & _)].
  - split; [discriminate | now intros (q & H & _)].
Qed.

Lemma safe_min_nonneg item :
  item ∈ SAFE_RANGES -> (0 <= fst (range (snd item)))%Q.
Proof.
  intros Hin. unfold SAFE_RANGES in Hin.
  each_entry Hin ltac:(vm_compute; discriminate).
Qed.

Lemma safe_max_positive item :
  item ∈ SAFE_RANGES -> (0 < snd (range (snd item)))%Q.
Proof.
  intros Hin. unfold SAFE_RANGES in Hin. each_entry Hin ltac:(reflexivity).
Qed.

Lemma bands_SAFE_RANGES param lo hi :
  (param, (lo, hi)) ∈ bands <->
  exists item, item ∈ SAFE_RANGES /\ fst item = param /\
               range (snd item) = (lo, hi).
Proof.
  unfold bands. rewrite list_elem_of_fmap. split.
  - intros ([p d] & [= -> Hr] & Hin). exists (p, d). easy.
  - intros ([p d] & Hin & <- & Hr). exists (p, d). simpl in *.
    now rewrite Hr.
Qed.

(** The value handed to the progress bar. *)
Lemma progress_fraction_usable q hi :
  (0 <= q)%Q -> (0 < hi)%Q ->
  exists f, progress_fraction (Finite q) hi = Finite f /\ (0 <= f <= 1)%Q.
Proof.
  intros Hq Hhi. unfold progress_fraction, py_max. cbn [flt].
  set (m := if Qltb hi q then q else hi).
  assert (Hm : (0 < m)%Q).
  { subst m. destruct (Qltb hi q) eqn:E; [|exact Hhi].
    apply GeoFacts.Qltb_lt in E. now apply Qlt_trans with hi. }
  replace (if Qltb hi q then Finite q else Finite hi) with (Finite m)
    by (subst m; now destruct (Qltb hi q)).
  cbn [fdiv]. destruct (Qeq_bool m 0) eqn:E0.
  { apply Qeq_bool_iff in E0. rewrite E0 in Hm. now apply Qlt_irrefl in Hm. }
  unfold py_min. cbn [flt]. destruct (Qltb 1 (q / m)) eqn:E1.
  - exists 1%Q. split; [reflexivity|]. split; [discriminate | apply Qle_refl].
  - exists (q / m)%Q. split; [reflexivity|]. split.
    + apply Qle_shift_div_l; [exact Hm|]. now rewrite Qmult_0_l.
    + now apply GeoFacts.Qltb_ge in E1.
Qed.

Lemma progress_fraction_negative q hi :
  (q < 0)%Q -> (0 < hi)%Q ->
  exists f, progress_fraction (Finite q) hi = Finite f /\ (f < 0)%Q.
Proof.
  intros Hq Hhi. unfold progress_fraction, py_max. cbn [flt].
  assert (Qltb hi q = false) as ->.
  { apply GeoFacts.Qltb_ge. apply Qlt_le_weak. now apply Qlt_trans with 0%Q. }
  cbn [fdiv]. destruct (Qeq_bool hi 0) eqn:E0.
  { apply Qeq_bool_iff in E0. rewrite E0 in Hhi. now apply Qlt_irrefl in Hhi. }
  assert (q / hi < 0)%Q as Hx.
  { apply Qlt_shift_div_r; [exact Hhi|]. now rewrite Qmult_0_l. }
  unfold py_min. cbn [flt].
  assert (Qltb 1 (q / hi) = false) as ->.
  { apply GeoFacts.Qltb_ge. apply Qlt_le_weak.
    apply Qlt_trans with 0%Q; [exact Hx | reflexivity]. }
  now exists (q / hi)%Q.
Qed.

Lemma progress_fraction_not_a_number hi :
  (0 < hi)%Q ->
  progress_fraction NaN hi = NaN /\
  progress_fraction PosInf hi = NaN /\
  progress_fraction NegInf hi = NegInf.
Proof.
  intros Hhi. split; [reflexivity|]. split; [reflexivity|].
  unfold progress_fraction, py_max, py_min. cbn [flt fdiv].
  destruct (Qeq_bool hi 0) eqn:E0.
  { apply Qeq_bool_iff in E0. rewrite E0 in Hhi. now apply Qlt_irrefl in Hhi. }
  apply GeoFacts.Qltb_lt in Hhi. now rewrite Hhi.
Qed.

(** Under the contract of [st.progress], the bar of a reading that is
    present and not negative is accepted, and the bar of a reading that
    is missing or infinite is refused. *)
Lemma bar_accepted accepts entry_data item :
  progress_contract accepts -> item ∈ SAFE_RANGES ->
  usable (entry_data (fst item)) ->
  accepts (bar_value entry_data item) = true.
Proof.
  intros (Hunit & _) Hin (q & Hv & Hq). unfold bar_value. rewrite Hv.
  destruct (progress_fraction_usable q (snd (range (snd item))) Hq
              (safe_max_positive item Hin)) as (f & -> & Hf).
  now apply Hunit.
Qed.

Lemma bar_refused accepts entry_data item :
  progress_contract accepts -> item ∈ SAFE_RANGES ->
  entry_data (fst item) = NaN \/ entry_data (fst item) = PosInf \/
  entry_data (fst item) = NegInf ->
  accepts (bar_value entry_data item) = false.
Proof.
  intros (_ & Hnan & _ & Hneg) Hin Hv. unfold bar_value.
  destruct (progress_fraction_not_a_number (snd (range (snd item)))
              (safe_max_positive item Hin)) as (H1 & H2 & H3).
  destruct Hv as [-> | [-> | ->]]; congruence.
Qed.

Lemma unit_interval_contract : progress_contract unit_interval.
Proof.
  split; [|easy]. intros q [H0 H1]. unfold unit_interval. simpl.
  apply andb_true_iff. now rewrite !Qle_bool_iff.
Qed.

(** A value in the band of a parameter is present and not negative. *)
Lemma in_range_usable entry_data item :
  item ∈ SAFE_RANGES -> in_range (status_of entry_data item) = true ->
  usable (entry_data (fst item)).
Proof.
  intros Hin H. apply is_within_safe_range_iff in H as (q & Hv & Hlo & _).
  exists q. split; [exact Hv|].
  apply Qle_trans with (fst (range (snd item))); [|exact Hlo].
  now apply safe_min_nonneg.
Qed.

Lemma fully_compliant_iff entry_data :
  is_fully_compliant entry_data = true <->
  forall item, item ∈ SAFE_RANGES ->
               in_range (status_of entry_data item) = true.
Proof.
  unfold is_fully_compliant, bands. rewrite forallb_forall. split.
  - intros H [param d] Hin.
    specialize (H (param, range d)). destruct (range d) as [lo hi] eqn:Hr.
    unfold status_of. simpl. rewrite Hr. apply H.
    apply in_map_iff. exists (param, d).
    split; [now rewrite Hr | now apply list_elem_of_In].
  - intros H [param [lo hi]] Hin.
    apply in_map_iff in Hin as ([p d] & [= -> Hr] & Hin).
    specialize (H (param, d) (proj2 (list_elem_of_In _ _) Hin)).
    unfold status_of in H. simpl in H. now rewrite Hr in H.
Qed.

Lemma elem_of_concat {A} (x : A) (ls : list (list A)) :
  x ∈ concat ls <-> exists l, x ∈ l /\ l ∈ ls.
Proof.
  rewrite list_elem_of_In, in_concat. split.
  - intros (l & H1 & H2). exists l. now rewrite !list_elem_of_In.
  - intros (l & H1 & H2). exists l. now rewrite <- !list_elem_of_In.
Qed.

Section Loop.

Variable accepts : pyfloat -> bool.

Lemma evaluate_param_eq entry_data item page :
  evaluate_param accepts entry_data item page =
    (status_of entry_data item, page ++ shown_for accepts entry_data item,
     accepts (bar_value entry_data item)).
Proof.
  destruct item as [param [[lo hi] descr impact]].
  unfold evaluate_param, shown_for, shown_before_bar, bar_value, status_of.
  simpl.
  destruct (accepts (progress_fraction (entry_data param) hi));
    [destruct (is_within_safe_range (entry_data param) lo hi)|];
    simpl; rewrite <- ?app_assoc; reflexivity.
Qed.

(** The run of the loop: the statuses of the items it gets to, what it
    adds to the page for each of them, and whether it gets to the end. *)
Lemma evaluate_loop_eq items entry_data : forall page,
  evaluate_loop accepts items entry_data page =
    {| statuses := map (status_of entry_data) (reached accepts entry_data items);
       shown :=
         page ++ concat (map (shown_for accepts entry_data)
                           (reached accepts entry_data items));
       ending_of :=
         if forallb (fun item => accepts (bar_value entry_data item)) items
         then finished else progress_raised |}.
Proof.
  induction items as [|item items IH]; intros page;
    cbn [evaluate_loop reached forallb].
  - simpl. now rewrite app_nil_r.
  - rewrite evaluate_param_eq.
    destruct (accepts (bar_value entry_data item)) eqn:E.
    + rewrite IH. simpl. now rewrite <- app_assoc.
    + simpl. now rewrite app_nil_r.
Qed.

Lemma reached_all entry_data items :
  forallb (fun item => accepts (bar_value entry_data item)) items = true ->
  reached accepts entry_data items = items.
Proof.
  induction items as [|item items IH]; simpl; [reflexivity|].
  intros H. apply andb_true_iff in H as [-> H]. now rewrite IH.
Qed.

Lemma reached_stop entry_data before item after :
  (forall it, it ∈ before -> accepts (bar_value entry_data it) = true) ->
  accepts (bar_value entry_data item) = false ->
  reached accepts entry_data (before ++ item :: after) = before ++ [item] /\
  forallb (fun item => accepts (bar_value entry_data item))
    (before ++ item :: after) = false.
Proof.
  intros Hb Hi. induction before as [|b before IH]; simpl.
  - now rewrite Hi.
  - rewrite (Hb b) by apply list_elem_of_here.
    destruct IH as [-> ->]; [|easy].
    intros it Hit. now apply Hb, list_elem_of_further.
Qed.

Lemma reached_length_all entry_data items :
  length (reached accepts entry_data items) = length items ->
  reached accepts entry_data items = items.
Proof.
  induction items as [|item items IH]; simpl; [reflexivity|].
  destruct (accepts (bar_value entry_data item)); simpl.
  - intros [= H]. now rewrite IH.
  - destruct items; [reflexivity | discriminate].
Qed.

Lemma shown_for_warning entry_data item param :
  st_out_of_range param ∈ shown_for accepts entry_data item <->
  accepts (bar_value entry_data item) = true /\ fst item = param /\
  in_range (status_of entry_data item) = false.
Proof.
  unfold shown_for, shown_before_bar.
  destruct (accepts (bar_value entry_data item));
    [destruct (in_range (status_of entry_data item))|]; simpl; split;
    try (intros (? & ? & ?); discriminate);
    try (intros H;
         repeat (apply elem_of_cons in H as [H|H];
                 [try discriminate; injection H as ->; easy|]);
         now inversion H).
  intros (_ & -> & _). do 5 apply list_elem_of_further.
  apply list_elem_of_here.
Qed.

Lemma shown_for_progress entry_data item f :
  st_progress f ∈ shown_for accepts entry_data item ->
  f = bar_value entry_data item /\ accepts f = true.
Proof.
  unfold shown_for, shown_before_bar.
  destruct (accepts (bar_value entry_data item)) eqn:E;
    [destruct (in_range (status_of entry_data item))|]; simpl;
    intros H;
    repeat (apply elem_of_cons in H as [H|H];
            [try discriminate; injection H as ->; easy|]);
    now inversion H.
Qed.

Lemma shown_for_subheader entry_data item :
  st_subheader (fst item) ∈ shown_for accepts entry_data item.
Proof. unfold shown_for, shown_before_bar. simpl. apply list_elem_of_here. Qed.

End Loop.

(** C4. The check marks a value in range exactly when it is a number
    that lies between the two bounds of its band, both included (a missing
    value, NaN, is never in range); the five bands are pH [6.5, 8.5],
    Chlorine [0, 4], Hardness [0, 120], Nitrates [0, 10] and Lead [0, 15],
    so pH 6.5 and pH 8.5 are in range and pH 9.0 is not; and a record is
    fully compliant exactly when its five values lie in their bands,
    which, for a progress bar that accepts the numbers between 0 and 1, is
    exactly when the loop of the page computes five statuses that are all
    in range, and exactly when it reaches its end without a warning. *)
Theorem in_range_iff_within_inclusive_band :
  (forall value min_val max_val,
     is_within_safe_range value min_val max_val = true <->
     exists q, value = Finite q /\ (min_val <= q <= max_val)%Q) /\
  bands = [ ("pH", (6.5, 8.5)%Q);
            ("Chlorine (mg/L)", (0, 4)%Q);
            ("Hardness (mg/L as CaCO3)", (0, 120)%Q);
            ("Nitrates (mg/L)", (0, 10)%Q);
            ("Lead (µg/L)", (0, 15)%Q) ] /\
  is_within_safe_range (Finite 6.5) 6.5 8.5 = true /\
  is_within_safe_range (Finite 8.5) 6.5 8.5 = true /\
  is_within_safe_range (Finite 9.0) 6.5 8.5 = false /\
  (forall entry_data,
     is_fully_compliant entry_data = true <->
     forall param lo hi,
       (param, (lo, hi)) ∈ bands ->
       exists q, entry_data param = Finite q /\ (lo <= q <= hi)%Q) /\
  (forall accepts, progress_contract accepts ->
   forall entry_data page,
     is_fully_compliant entry_data = true <->
     map in_range (statuses (evaluate accepts entry_data page)) =
       [true; true; true; true; true]) /\
  (forall accepts, progress_contract accepts ->
   forall entry_data,
     is_fully_compliant entry_data = true <->
     ending_of (evaluate accepts entry_data []) = finished /\
     forall param,
       st_out_of_range param ∉ shown (evaluate accepts entry_data [])).
Proof.
  split; [exact is_within_safe_range_iff|].
  split; [reflexivity|].
  do 3 (split; [reflexivity|]).
  assert (Hall : forall accepts entry_data,
            progress_contract accepts ->
            is_fully_compliant entry_data = true ->
            forallb (fun item => accepts (bar_value entry_data item))
              SAFE_RANGES = true).
  { intros accepts entry_data Hc H. apply forallb_forall. intros item Hin.
    apply list_elem_of_In in Hin.
    apply bar_accepted; [exact Hc | exact Hin|].
    apply in_range_usable; [exact Hin|].
    now apply (proj1 (fully_compliant_iff entry_data)). }
  split; [|split].
  - intros entry_data. rewrite fully_compliant_iff. split.
    + intros H param lo hi Hin.
      apply bands_SAFE_RANGES in Hin as (item & Hin & <- & Hr).
      specialize (H item Hin). apply is_within_safe_range_iff in H.
      now rewrite Hr in H.
    + intros H [param d] Hin. destruct (range d) as [lo hi] eqn:Hr.
      apply is_within_safe_range_iff. simpl. rewrite Hr. apply (H param lo hi).
      apply bands_SAFE_RANGES. exists (param, d). easy.
  - intros accepts Hc entry_data page. unfold evaluate.
    rewrite evaluate_loop_eq. cbn [statuses]. split.
    + intros H. rewrite (reached_all _ _ _ (Hall _ _ Hc H)).
      pose proof (proj1 (fully_compliant_iff entry_data) H) as Hin.
      rewrite map_map. unfold SAFE_RANGES at 1. cbn [map].
      rewrite !Hin; [reflexivity|..]; unfold SAFE_RANGES;
        repeat (first [apply list_elem_of_here | apply list_elem_of_further]).
    + intros H. apply fully_compliant_iff.
      assert (length (reached accepts entry_data SAFE_RANGES) =
              length SAFE_RANGES) as Hlen.
      { apply (f_equal (@length bool)) in H.
        now rewrite !length_map in H. }
      apply reached_length_all in Hlen. rewrite Hlen in H.
      rewrite map_map in H. unfold SAFE_RANGES in H. cbn [map] in H.
      injection H as H1 H2 H3 H4 H5.
      intros item Hin. unfold SAFE_RANGES in Hin.
      each_entry Hin ltac:(assumption).
  - intros accepts Hc entry_data. unfold evaluate.
    rewrite evaluate_loop_eq. cbn [shown ending_of]. rewrite app_nil_l. split.
    + intros H. pose proof (Hall _ _ Hc H) as Hacc. rewrite Hacc.
      split; [reflexivity|]. intros param Hw.
      apply elem_of_concat in Hw as (evs & Hw & Hevs).
      apply list_elem_of_fmap in Hevs as (item & -> & Hitem).
      rewrite (reached_all _ _ _ Hacc) in Hitem.
      apply shown_for_warning in Hw as (_ & _ & Hout).
      pose proof (proj1 (fully_compliant_iff entry_data) H) as Hin.
      now rewrite (Hin item Hitem) in Hout.
    + intros [Hend Hno]. apply fully_compliant_iff. intros item Hin.
      destruct (forallb (fun item => accepts (bar_value entry_data item))
                  SAFE_RANGES) eqn:Hacc; [|discriminate].
      destruct (in_range (status_of entry_data item)) eqn:E; [reflexivity|].
      destruct (Hno (fst item)).
      apply elem_of_concat. exists (shown_for accepts entry_data item).
      split.
      * apply shown_for_warning. split; [|easy].
        rewrite forallb_forall in Hacc. apply Hacc. now apply list_elem_of_In.
      * apply list_elem_of_fmap. exists item. split; [reflexivity|].
        now rewrite (reached_all _ _ _ Hacc).
Qed.

Lemma in_range_iff_within_inclusive_band_witness :
  progress_contract unit_interval /\
  is_fully_compliant alkaline_row = false /\
  map in_range (statuses (evaluate unit_interval alkaline_row [])) =
    [false; true; true; true; true] /\
  is_fully_compliant (fun _ => Finite 7) = false /\
  is_fully_compliant (fun _ => Finite 1) = false /\
  is_fully_compliant
    (fun param => if String.eqb param "pH" then Finite 7 else Finite 1) = true /\
  map in_range
    (statuses
       (evaluate unit_interval
          (fun param => if String.eqb param "pH" then Finite 7 else Finite 1)
          [])) = [true; true; true; true; true].
Proof.
  destruct in_range_iff_within_inclusive_band
    as (_ & _ & _ & _ & _ & _ & Hsts & _).
  split; [exact unit_interval_contract|].
  do 4 (split; [vm_compute; reflexivity|]).
  assert (is_fully_compliant
            (fun param => if String.eqb param "pH" then Finite 7 else Finite 1)
          = true) as Hc by (vm_compute; reflexivity).
  split; [exact Hc|].
  exact (proj1 (Hsts unit_interval unit_interval_contract _ []) Hc).
Defined.




End ComplianceFacts.

(** ** The dashboard's monitoring against the home page's check *)

Module DashboardFacts.

Import HomePage Dashboard.

Lemma out_of_band_finite q min_val max_val :
  out_of_band (Finite q) min_val max_val = true <->
  ~ (min_val <= q <= max_val)%Q.
Proof.
  unfold out_of_band. cbn [flt].
  rewrite orb_true_iff, !GeoFacts.Qltb_lt. split.
  - intros [H|H] [H1 H2].
    + now apply Qlt_not_le in H.
    + now apply Qlt_not_le in H.
  - intros H. destruct (Qlt_le_dec q min_val) as [Hlt|Hle]; [now left|].
    destruct (Qlt_le_dec max_val q) as [Hlt|Hle']; [now right|].
    destruct H. now split.
Qed.

Lemma out_of_band_negb value min_val max_val :
  value <> NaN ->
  out_of_band value min_val max_val =
  negb (is_within_safe_range value min_val max_val).
Proof.
  intros Hv. destruct value as [q| | |]; [| reflexivity | reflexivity | easy].
  destruct (is_within_safe_range (Finite q) min_val max_val) eqn:E; simpl.
  - apply ComplianceFacts.is_within_safe_range_iff in E as (q' & [= <-] & E).
    destruct (out_of_band (Finite q) min_val max_val) eqn:O; [|reflexivity].
    now apply out_of_band_finite in O.
  - apply out_of_band_finite. intros H.
    assert (is_within_safe_range (Finite q) min_val max_val = true)
      by (apply ComplianceFacts.is_within_safe_range_iff; eauto).
    congruence.
Qed.

(** X1. The dashboard monitors the same five bands as the home page.  On
    a value that is present, its mask flags exactly the values the home
    page's check puts out of range.  On a value that is missing (NaN) the
    two pages differ: the home page's check puts it out of range, the
    dashboard's mask does not flag it.  So the rows the dashboard reports
    for a parameter are the rows of the selection whose value is present
    and out of range. *)
Theorem dashboard_flags_what_home_page_rejects :
  REGULATORY_STANDARDS = bands /\
  (forall value min_val max_val,
     value <> NaN ->
     out_of_band value min_val max_val =
     negb (is_within_safe_range value min_val max_val)) /\
  (forall min_val max_val,
     out_of_band NaN min_val max_val = false /\
     is_within_safe_range NaN min_val max_val = false) /\
  (forall q min_val max_val,
     out_of_band (Finite q) min_val max_val = true <->
     (q < min_val)%Q \/ (max_val < q)%Q) /\
  (forall filtered_data param min_val max_val row,
     In row (non_compliant_data filtered_data param min_val max_val) <->
     In row filtered_data /\ row param <> NaN /\
     is_within_safe_range (row param) min_val max_val = false).
Proof.
  split; [reflexivity|]. split; [exact out_of_band_negb|].
  split; [easy|]. split.
  - intros q min_val max_val. unfold out_of_band. cbn [flt].
    now rewrite orb_true_iff, !GeoFacts.Qltb_lt.
  - intros filtered_data param min_val max_val row.
    unfold non_compliant_data. rewrite filter_In.
    destruct (row param) as [q| | |] eqn:E.
    + rewrite (out_of_band_negb (Finite q)) by discriminate.
      rewrite negb_true_iff. split; [intros [H1 H2] | intros (H1 & _ & H2)];
        easy.
    + split; [intros [H1 _] | intros (H1 & _)]; easy.
    + split; [intros [H1 _] | intros (H1 & _)]; easy.
    + split; [intros [_ H] | intros (_ & H & _)]; easy.
Qed.

End DashboardFacts.

(** ** More on the zone resolver *)

Module ResolverFacts.

Import GeoResolver GeoFacts.

Section Ranking.

Variables d d' : coords -> coords -> Q.
Variable table : list (string * coords).
Variables lat lon : Q.
Hypothesis Hrank : same_ranking d d' table (lat, lon).

Lemma nearest_loop_same_ranking items : forall m m' n,
  (forall item, item ∈ items -> snd item ∈ map snd table) ->
  same_minimum d d' table (lat, lon) m m' ->
  nearest_loop d items lat lon m n = nearest_loop d' items lat lon m' n.
Proof.
  induction items as [|[z0 c0] items IH]; intros m m' n Hin Hm; simpl;
    [reflexivity|].
  assert (c0 ∈ map snd table) as Hc0
    by (apply (Hin (z0, c0)), list_elem_of_here).
  assert (forall item, item ∈ items -> snd item ∈ map snd table) as Hin'
    by (intros item H; now apply Hin, list_elem_of_further).
  assert (below (d (lat, lon) c0) m = below (d' (lat, lon) c0) m') as Hb.
  { destruct Hm as [[-> ->]|(c & Hc & -> & ->)]; [reflexivity|]. simpl.
    apply eq_true_iff_eq. rewrite !Qltb_lt. now apply Hrank. }
  rewrite <- Hb. destruct (below (d (lat, lon) c0) m).
  - apply IH; [exact Hin'|]. right. eauto.
  - now apply IH.
Qed.

End Ranking.

(** X2. The nearest-zone search uses the distances only to compare them:
    two distance functions that order the centroids of the table in the
    same way around the point give the same zone.  So the unit of the
    distance does not matter. *)
Theorem nearest_depends_on_ranking_only
    (d d' : coords -> coords -> Q) (table : list (string * coords))
    (lat lon : Q) :
  same_ranking d d' table (lat, lon) ->
  get_nearest_zipcode_in d table lat lon =
  get_nearest_zipcode_in d' table lat lon.
Proof.
  intros Hrank. unfold get_nearest_zipcode_in.
  apply (nearest_loop_same_ranking d d' table lat lon Hrank).
  - intros item Hin. apply list_elem_of_fmap. eauto.
  - left. easy.
Qed.

Lemma nearest_depends_on_ranking_only_witness :
  same_ranking flat_distance2 flat_distance2_scaled known_zipcode_coords
    (37.35, -121.90)%Q /\
  get_nearest_zipcode_in flat_distance2 known_zipcode_coords 37.35 (-121.90) =
  get_nearest_zipcode_in flat_distance2_scaled known_zipcode_coords
    37.35 (-121.90).
Proof.
  assert (same_ranking flat_distance2 flat_distance2_scaled
            known_zipcode_coords (37.35, -121.90)%Q) as Hrank.
  { intros c1 c2 _ _. unfold flat_distance2_scaled. split; intros H.
    - apply Qmult_lt_l; [reflexivity | exact H].
    - apply Qmult_lt_l in H; [exact H | reflexivity]. }
  split; [exact Hrank|].
  exact (nearest_depends_on_ranking_only _ _ _ _ _ Hrank).
Defined.

Section Shapes.

Variable geodesic_miles : coords -> coords -> Q.
Variable requests_get : get_call -> result response.
Variables lat lon : Q.

(** The answer is a response with a success status and the JSON value
    [data]. *)
Lemma resolve_on_data resp data :
  requests_get (reverse_call lat lon) = Ok resp ->
  ~ (400 <= status_code resp < 600)%Z -> body resp = Some data ->
  get_zipcode_from_coordinates geodesic_miles requests_get lat lon =
    match data with
    | JNull | JBool _ | JNum _ => (Raise TypeError, [])
    | JStr s =>
        if bool_decide (is_Some (String.index 0 "address" s))
        then (Raise TypeError, [])
        else (Ok (nearest_value geodesic_miles lat lon), [])
    | JArr l =>
        if existsb (equals_str "address") l
        then (Raise TypeError, [])
        else (Ok (nearest_value geodesic_miles lat lon), [])
    | JObj o =>
        match o !! "address" with
        | None => (Ok (nearest_value geodesic_miles lat lon), [])
        | Some (JObj a) =>
            match a !! "postcode" with
            | Some v => (Ok v, [])
            | None => (Ok (nearest_value geodesic_miles lat lon), [])
            end
        | Some (JArr l) =>
            if existsb (equals_str "postcode") l
            then (Raise TypeError, [])
            else (Ok (nearest_value geodesic_miles lat lon), [])
        | Some (JStr s) =>
            if bool_decide (is_Some (String.index 0 "postcode" s))
            then (Raise TypeError, [])
            else (Ok (nearest_value geodesic_miles lat lon), [])
        | Some _ => (Raise TypeError, [])
        end
    end.
Proof.
  intros H Hst Hb. unfold get_zipcode_from_coordinates.
  rewrite (resolve_data _ _ _ _ _ _ H Hst Hb).
  destruct data as [| b | q | s | l | o]; simpl; try reflexivity.
  - now destruct (bool_decide _).
  - now destruct (existsb _ l).
  - destruct (o !! "address") as [[| b | q | s | l | a]|] eqn:Ha; simpl;
      try reflexivity.
    + now destruct (bool_decide _).
    + now destruct (existsb _ l).
    + destruct (a !! "postcode") as [v|] eqn:Hp; simpl; [|reflexivity].
      rewrite ?Hp. now destruct v.
Qed.

(** The [try] block raises an exception of [requests] in three cases
    only: the call itself raises it, the status is an error status, or the
    body is not JSON. *)
Lemma try_remote_request_exception e :
  try_remote geodesic_miles requests_get lat lon = Raise (RequestException e)
  <->
  (requests_get (reverse_call lat lon) = Raise (RequestException e) \/
   exists resp,
     requests_get (reverse_call lat lon) = Ok resp /\
     ((400 <= status_code resp < 600)%Z /\ e = HTTPError \/
      ~ (400 <= status_code resp < 600)%Z /\ body resp = None /\
      e = JSONDecodeError)).
Proof.
  destruct (requests_get (reverse_call lat lon)) as [resp|ex] eqn:H.
  - destruct (decide (400 <= status_code resp < 600)%Z) as [Hst|Hst].
    + assert (try_remote geodesic_miles requests_get lat lon =
              Raise (RequestException HTTPError)) as ->.
      { unfold try_remote. rewrite H. simpl.
        now rewrite (raise_for_status_error _ Hst). }
      split.
      * intros [= <-]. right. exists resp. split; [reflexivity|]. now left.
      * intros [Hr|(resp' & [= <-] & [[_ ->]|[Hno _]])];
          [discriminate | reflexivity | contradiction].
    + destruct (body resp) as [data|] eqn:Hb.
      * rewrite (resolve_data _ _ _ _ _ _ H Hst Hb). split.
        -- destruct data as [| b | q | s | l | o]; simpl; try discriminate.
           ++ destruct (bool_decide _); simpl; discriminate.
           ++ destruct (existsb _ l); simpl; discriminate.
           ++ destruct (bool_decide _); simpl; [|discriminate].
              destruct (o !! "address") as [[| b | q | s | l | a]|];
                simpl; try discriminate.
              ** destruct (bool_decide _); simpl; discriminate.
              ** destruct (existsb _ l); simpl; discriminate.
              ** destruct (bool_decide _); simpl; [|discriminate].
                 destruct (a !! "postcode"); simpl; discriminate.
        -- intros [Hr|(resp' & [= <-] & [[Hyes _]|(_ & Hnone & _)])];
             [discriminate | contradiction | congruence].
      * assert (try_remote geodesic_miles requests_get lat lon =
                Raise (RequestException JSONDecodeError)) as ->.
        { unfold try_remote. rewrite H. simpl.
          rewrite (raise_for_status_ok _ Hst). simpl.
          unfold response_json. now rewrite Hb. }
        split.
        -- intros [= <-]. right. exists resp. split; [reflexivity|].
           right. easy.
        -- intros [Hr|(resp' & [= <-] & [[Hyes _]|(_ & _ & ->)])];
             [discriminate | contradiction | reflexivity].
  - assert (try_remote geodesic_miles requests_get lat lon = Raise ex) as ->
      by (unfold try_remote; now rewrite H).
    split.
    + intros [= ->]. now left.
    + intros [[= ->]|(resp & Hr & _)]; [reflexivity | discriminate].
Qed.

End Shapes.



Section Location.

Variable geodesic_miles : coords -> coords -> Q.
Variable requests_get : get_call -> result response.
Variables lat lon : Q.

Lemma nearest_value_truthy :
  truthy (nearest_value geodesic_miles lat lon) = true.
Proof.
  destruct (nearest_value_known geodesic_miles lat lon) as (z & -> & _ & Hz).
  simpl. destruct (String.eqb_spec z ""); [contradiction | reflexivity].
Qed.

(** A value the [try] block returns is the nearest known zone or the
    postcode of the answer. *)
Lemma try_remote_Ok v :
  try_remote geodesic_miles requests_get lat lon = Ok v ->
  v = nearest_value geodesic_miles lat lon \/
  exists resp o a,
    requests_get (reverse_call lat lon) = Ok resp /\
    body resp = Some (JObj o) /\ o !! "address" = Some (JObj a) /\
    a !! "postcode" = Some v.
Proof.
  intros Hv.
  destruct (requests_get (reverse_call lat lon)) as [resp|e] eqn:H;
    [|unfold try_remote in Hv; rewrite H in Hv; discriminate].
  destruct (decide (400 <= status_code resp < 600)%Z) as [Hst|Hst].
  { unfold try_remote in Hv. rewrite H in Hv. simpl in Hv.
    rewrite (raise_for_status_error _ Hst) in Hv. discriminate. }
  destruct (body resp) as [data|] eqn:Hb.
  2:{ unfold try_remote in Hv. rewrite H in Hv. simpl in Hv.
      rewrite (raise_for_status_ok _ Hst) in Hv. simpl in Hv.
      unfold response_json in Hv. rewrite Hb in Hv. discriminate. }
  pose proof (resolve_on_data geodesic_miles requests_get lat lon resp data
                H Hst Hb) as Hshape.
  unfold get_zipcode_from_coordinates in Hshape. rewrite Hv in Hshape.
  destruct data as [| b | q | s | l | o];
    [| | | | |destruct (o !! "address") as [[| b | q | s | l | a]|] eqn:Ha];
    repeat match type of Hshape with
           | context [bool_decide ?P] => destruct (bool_decide P)
           | context [existsb ?f ?l] => destruct (existsb f l)
           | context [?a !! "postcode"] =>
               let Hp := fresh "Hp" in
               destruct (a !! "postcode") eqn:Hp
           end;
    try discriminate; injection Hshape as ->; eauto 8.
Qed.

End Location.

(** X4. Step 1 of the input page.  When the remote call fails, the page
    announces a detected zipcode, one of the seven known ones, and never
    the notice that no zipcode was detected.  That notice appears only
    when the service itself answered with a postcode that Python takes as
    false (such as the empty string), and then it is the only message. *)
Theorem location_step_messages
    (geodesic_miles : coords -> coords -> Q)
    (requests_get : get_call -> result response) (lat lon : Q) :
  (remote_failure (requests_get (reverse_call lat lon)) ->
   exists z shown,
     z ∈ map fst known_zipcode_coords /\
     location_step geodesic_miles requests_get (Some (lat, lon)) =
       (Ok (JStr z), map from_resolver shown ++ [detected_zipcode (JStr z)]))
  /\
  (could_not_detect ∈
     snd (location_step geodesic_miles requests_get (Some (lat, lon))) ->
   exists resp o a v,
     requests_get (reverse_call lat lon) = Ok resp /\
     body resp = Some (JObj o) /\ o !! "address" = Some (JObj a) /\
     a !! "postcode" = Some v /\ truthy v = false /\
     location_step geodesic_miles requests_get (Some (lat, lon)) =
       (Ok v, [could_not_detect])).
Proof.
  split.
  - intros Hfail.
    pose proof (resolve_failure geodesic_miles requests_get lat lon Hfail)
      as Hres.
    destruct (nearest_value_known geodesic_miles lat lon)
      as (z & Hz & Hin & Hne).
    unfold location_step.
    destruct (get_zipcode_from_coordinates geodesic_miles requests_get lat lon)
      as [r shown].
    simpl in Hres. subst r. exists z, shown. split; [exact Hin|].
    pose proof (nearest_value_truthy geodesic_miles lat lon) as Ht.
    rewrite Hz in *. simpl in Ht |- *. now rewrite Ht.
  - unfold location_step, get_zipcode_from_coordinates.
    destruct (try_remote geodesic_miles requests_get lat lon)
      as [v|[| | |e]] eqn:Htry; simpl.
    + destruct (truthy v) eqn:Ht.
      * intros Hin. apply list_elem_of_singleton in Hin. discriminate.
      * intros _.
        destruct (try_remote_Ok _ _ _ _ _ Htry)
          as [->|(resp & o & a & H & Hb & Ha & Hp)].
        -- now rewrite nearest_value_truthy in Ht.
        -- exists resp, o, a, v. easy.
    + intros Hin. inversion Hin.
    + intros Hin. inversion Hin.
    + intros Hin. inversion Hin.
    + rewrite nearest_value_truthy. intros Hin.
      apply elem_of_cons in Hin as [Hin|Hin]; [discriminate|].
      apply list_elem_of_singleton in Hin. discriminate.
Qed.

Lemma location_step_messages_witness :
  remote_failure (offline (reverse_call 37.35 (-121.90))) /\
  location_step flat_distance2 offline (Some (37.35, -121.90)%Q) =
    (Ok (JStr "95110"),
     [from_resolver (warning_could_not_connect ConnectionError);
      detected_zipcode (JStr "95110")]) /\
  could_not_detect ∈
    snd (location_step flat_distance2 (answers empty_postcode)
           (Some (37.35, -121.90)%Q)) /\
  location_step flat_distance2 (answers empty_postcode)
    (Some (37.35, -121.90)%Q) = (Ok (JStr ""), [could_not_detect]).
Proof.
  assert (remote_failure (offline (reverse_call 37.35 (-121.90)))) as Hfail
    by (now apply (failure_exception _ ConnectionError)).
  assert (could_not_detect ∈
            snd (location_step flat_distance2 (answers empty_postcode)
                   (Some (37.35, -121.90)%Q))) as Hin
    by (vm_compute; apply list_elem_of_here).
  split; [exact Hfail|].
  split; [vm_compute; reflexivity|].
  split; [exact Hin|].
  destruct (proj2 (location_step_messages flat_distance2
                     (answers empty_postcode) 37.35 (-121.90)) Hin)
    as (resp & o & a & v & _ & _ & _ & _ & _ & _).
  vm_compute. reflexivity.
Defined.

End ResolverFacts.

(** ** More on the reading parser, and the image flow *)

Module ExtractionFacts.

Import Re ParserSpec ReadingParser ReFacts ParserFacts Extraction.

Lemma lower_idempotent a : lower (lower a) = lower a.
Proof. destruct a as [[] [] [] [] [] [] [] []]; reflexivity. Qed.

Lemma in_class_lower k a : in_class k (lower a) = in_class k a.
Proof. destruct k, a as [[] [] [] [] [] [] [] []]; reflexivity. Qed.

Lemma in_class_lower_id k a : in_class k a = true -> lower a = a.
Proof.
  destruct k, a as [[] [] [] [] [] [] [] []]; vm_compute; congruence.
Qed.

Lemma eq_ignorecase_lower c a : eq_ignorecase c (lower a) = eq_ignorecase c a.
Proof. unfold eq_ignorecase. now rewrite lower_idempotent. Qed.

Lemma star_here_lower k rest rest' s :
  (forall s, rest' (map lower s) = rest s) ->
  star_here k rest' (map lower s) = star_here k rest s.
Proof.
  intros Hrest. induction s as [|a s IH]; simpl.
  - apply (Hrest []).
  - pose proof (Hrest (a :: s)) as Ha. simpl in Ha.
    now rewrite in_class_lower, IH, Ha.
Qed.

Lemma plus_here_lower k rest rest' s :
  (forall s, rest' (map lower s) = rest s) ->
  plus_here k rest' (map lower s) = plus_here k rest s.
Proof.
  intros Hrest. induction s as [|a s IH]; simpl; [reflexivity|].
  rewrite in_class_lower, IH, Hrest.
  destruct (in_class k a) eqn:E; [|reflexivity].
  now rewrite (in_class_lower_id k a E).
Qed.

Lemma match_here_lower p : forall s,
  match_here p (map lower s) = match_here p s.
Proof.
  induction p as [|[c|k|k] p IH]; intros s; simpl.
  - reflexivity.
  - destruct s as [|a s]; simpl; [reflexivity|].
    now rewrite eq_ignorecase_lower, IH.
  - now apply star_here_lower.
  - now rewrite (plus_here_lower k (match_here p) (match_here p) s IH).
Qed.

Lemma search_lower p s : search p (map lower s) = search p s.
Proof.
  induction s as [|a s IH].
  - reflexivity.
  - change (search p (map lower (a :: s))) with
      (match match_here p (map lower (a :: s)) with
       | Some gs => Some gs
       | None => search p (map lower s)
       end).
    rewrite match_here_lower, IH. reflexivity.
Qed.

Lemma parse_loop_ext ps s s' : forall m,
  (forall p, search p s = search p s') ->
  parse_loop ps s m = parse_loop ps s' m.
Proof.
  intros m Hs. revert m. induction ps as [|[param pat] ps IH]; intros m;
    simpl; [reflexivity|].
  rewrite Hs. destruct (search pat s'); [|apply IH].
  destruct (Float.float (group1 g)); simpl; [apply IH | reflexivity].
Qed.

(** X5. The parser does not see the case of letters: two texts that
    differ only in letter case give the same result, the same mapping or
    the same exception. *)
Theorem parse_ignores_letter_case (t t' : string) :
  same_up_to_case t t' ->
  parse_extracted_text t = parse_extracted_text t'.
Proof.
  intros Hcase. unfold parse_extracted_text.
  rewrite (parse_loop_ext patterns (list_ascii_of_string t)
             (map lower (list_ascii_of_string t)))
    by (intros p; now rewrite search_lower).
  rewrite Hcase. apply parse_loop_ext. intros p. apply search_lower.
Qed.

Lemma parse_ignores_letter_case_witness :
  same_up_to_case "PH: 7.2 chlorine 1.5 LEAD 3" "pH: 7.2 Chlorine 1.5 Lead 3" /\
  parse_extracted_text "PH: 7.2 chlorine 1.5 LEAD 3" =
  parse_extracted_text "pH: 7.2 Chlorine 1.5 Lead 3".
Proof.
  assert (same_up_to_case "PH: 7.2 chlorine 1.5 LEAD 3"
            "pH: 7.2 Chlorine 1.5 Lead 3") as Hcase by reflexivity.
  split; [exact Hcase|]. exact (parse_ignores_letter_case _ _ Hcase).
Defined.

(** A token of a labelled number is made of characters of the text. *)
Lemma labelled_number_in_text label pre suf tok a :
  labelled_number_at label suf tok -> a ∈ tok -> a ∈ pre ++ suf.
Proof.
  intros (l & sep & rest & -> & _) Ha.
  rewrite !elem_of_app. tauto.
Qed.

(** X6. A text of ASCII characters that holds no digit and no dot gives
    the empty mapping: the parser finds no reading in it and does not
    raise. *)
Theorem parse_without_digits_is_empty (t : string) :
  PatternWords.ascii_text t ->
  no_digit_or_dot t -> parse_extracted_text t = Ok ∅.
Proof.
  intros _ Hnone.
  assert (forall label,
            search (label_number label) (list_ascii_of_string t) = None)
    as Hsearch.
  { intros label. apply search_label_number_None.
    intros pre suf tok Ht Htok.
    pose proof Htok as (l & sep & rest & _ & _ & _ & Hne & Hall & _).
    destruct tok as [|a tok]; [congruence|].
    inversion Hall as [|? ? Ha _]; subst.
    assert (a ∈ list_ascii_of_string t) as Hin.
    { rewrite Ht. eapply labelled_number_in_text; [exact Htok|].
      apply list_elem_of_here. }
    unfold no_digit_or_dot in Hnone. rewrite Forall_forall in Hnone.
    specialize (Hnone a Hin). congruence. }
  unfold parse_extracted_text, patterns. simpl.
  now rewrite !Hsearch.
Qed.

Lemma parse_without_digits_is_empty_witness :
  PatternWords.ascii_text "pH: n/a, Chlorine: none" /\
  no_digit_or_dot "pH: n/a, Chlorine: none" /\
  parse_extracted_text "pH: n/a, Chlorine: none" = Ok ∅.
Proof.
  assert (PatternWords.ascii_text "pH: n/a, Chlorine: none") as Hascii.
  { unfold PatternWords.ascii_text. simpl.
    repeat (constructor; [vm_compute; lia|]). constructor. }
  assert (no_digit_or_dot "pH: n/a, Chlorine: none") as Hnone.
  { unfold no_digit_or_dot. apply Forall_forall. intros a Ha.
    simpl in Ha. each_entry Ha ltac:(reflexivity). }
  split; [exact Hascii|]. split; [exact Hnone|].
  exact (parse_without_digits_is_empty _ Hascii Hnone).
Defined.

Lemma list_ascii_app (s1 s2 : string) :
  list_ascii_of_string (s1 +:+ s2) =
  list_ascii_of_string s1 ++ list_ascii_of_string s2.
Proof. induction s1 as [|a s1 IH]; simpl; [reflexivity | now rewrite IH]. Qed.

(** In the joined text, the texts of two neighbouring detections stand
    one after the other with one space between them. *)
Lemma concat_neighbours before (d1 d2 : string) after :
  exists A B,
    list_ascii_of_string (String.concat " " (before ++ [d1; d2] ++ after)) =
    A ++ list_ascii_of_string d1 ++ " "%char :: list_ascii_of_string d2 ++ B.
Proof.
  induction before as [|b before IH].
  - destruct after as [|c after].
    + exists [], []. simpl. rewrite !list_ascii_app. simpl.
      now rewrite app_nil_r.
    + exists [], (list_ascii_of_string (" " +:+ String.concat " " (c :: after))).
      change (String.concat " " ([] ++ [d1; d2] ++ c :: after)) with
        (d1 +:+ " " +:+ d2 +:+ " " +:+ String.concat " " (c :: after)).
      now rewrite !list_ascii_app.
  - destruct IH as (A & B & IH).
    exists (list_ascii_of_string b ++ " "%char :: A), B.
    assert (String.concat " " ((b :: before) ++ [d1; d2] ++ after) =
            b +:+ " " +:+ String.concat " " (before ++ [d1; d2] ++ after))
      as -> by (destruct before; reflexivity).
    rewrite !list_ascii_app, IH. simpl. now rewrite <- app_assoc.
Qed.

Lemma parse_entry_found (t : string) r key label :
  (key, label) ∈ parameters ->
  parse_extracted_text t = Ok r ->
  (exists pre suf tok,
     list_ascii_of_string t = pre ++ suf /\ labelled_number_at label suf tok) ->
  is_Some (r !! key).
Proof.
  intros Hkey Hrun (pre & suf & tok & Ht & Htok).
  unfold parse_extracted_text in Hrun.
  destruct (parse_loop_Ok _ _ _ _ parameters_keys_NoDup Hrun) as [Hin _].
  specialize (Hin key _ (parameter_pattern key label Hkey)).
  destruct (search (label_number label) (list_ascii_of_string t)) eqn:E.
  - destruct Hin as (v & _ & ->). eauto.
  - rewrite search_label_number_None in E. now destruct (E pre suf tok).
Qed.



End ExtractionFacts.

(** ** More on the input page *)

Module InputPageFacts.

Import GeoResolver ManualInput InputFacts.

(** X8. [trigger_rerun] touches the flag ['refresh'] only, leaves a
    boolean in it, and negates the truth value the flag had; so from the
    first call on the flag alternates, and three calls in a row leave the
    session as one call does. *)
Theorem trigger_rerun_toggles (st : gmap string json) :
  (forall key, key <> "refresh" -> trigger_rerun st !! key = st !! key) /\
  (forall v, st !! "refresh" = Some v ->
             trigger_rerun st !! "refresh" = Some (JBool (negb (truthy v)))) /\
  (st !! "refresh" = None ->
   trigger_rerun st !! "refresh" = Some (JBool true)) /\
  trigger_rerun (trigger_rerun (trigger_rerun st)) = trigger_rerun st.
Proof.
  assert (Hflag : forall st' : gmap string json,
            exists b, trigger_rerun st' = <["refresh" := JBool b]> st').
  { intros st'. unfold trigger_rerun. destruct (st' !! "refresh"); eauto. }
  assert (Hbool : forall (st' : gmap string json) b,
            trigger_rerun (<["refresh" := JBool b]> st') =
            <["refresh" := JBool (negb b)]> st').
  { intros st' b. unfold trigger_rerun.
    rewrite lookup_insert_eq. simpl. apply insert_insert_eq. }
  repeat split.
  - intros key Hne. destruct (Hflag st) as [b ->].
    now apply lookup_insert_ne.
  - intros v Hv. unfold trigger_rerun. rewrite Hv. apply lookup_insert_eq.
  - intros Hv. unfold trigger_rerun. rewrite Hv. apply lookup_insert_eq.
  - destruct (Hflag st) as [b ->]. rewrite !Hbool.
    now rewrite negb_involutive.
Qed.

Lemma trigger_rerun_toggles_witness :
  (∅ : gmap string json) !! "refresh" = None /\
  trigger_rerun ∅ !! "refresh" = Some (JBool true) /\
  trigger_rerun (trigger_rerun ∅) !! "refresh" = Some (JBool false).
Proof.
  split; [reflexivity|].
  destruct (trigger_rerun_toggles ∅) as (_ & _ & Hnone & _).
  split; [exact (Hnone eq_refl)|].
  destruct (trigger_rerun_toggles (trigger_rerun ∅)) as (_ & Hsome & _).
  exact (Hsome (JBool true) (Hnone eq_refl)).
Defined.

Lemma delete_last {A} (l : list A) x : delete (length l) (l ++ [x]) = l.
Proof. induction l as [|a l IH]; simpl; [reflexivity | now rewrite IH]. Qed.

(** X9. [data.drop(i).reset_index(drop=True)] on the frame that was
    loaded.  For a label [i] of the frame the result is the frame without
    its row [i]: one row fewer, the rows before [i] at their positions,
    the rows after [i] one position lower, each of them the row it was.
    For any other label it raises [KeyError].  And dropping the label of a
    row that was just appended gives back the frame. *)
Theorem drop_reset_removes_one_row
    (data : list (gmap string cell)) (i : nat) :
  (i < length data ->
   exists data',
     drop_reset i data = Ok data' /\
     data' = take i data ++ drop (S i) data /\
     length data' = length data - 1 /\
     (forall j, j < i -> data' !! j = data !! j) /\
     (forall j, i <= j -> data' !! j = data !! S j)) /\
  (length data <= i -> drop_reset i data = Raise KeyError) /\
  (forall row, drop_reset (length data) (data ++ [row]) = Ok data).
Proof.
  split; [|split].
  - intros Hi. exists (delete i data). unfold drop_reset.
    apply Nat.ltb_lt in Hi as Hlt. rewrite Hlt.
    split; [reflexivity|].
    split; [apply delete_take_drop|].
    split; [apply length_delete; now apply lookup_lt_is_Some|].
    split.
    + intros j Hj. now apply list_lookup_delete_lt.
    + intros j Hj. now apply list_lookup_delete_ge.
  - intros Hi. unfold drop_reset. apply Nat.ltb_ge in Hi. now rewrite Hi.
  - intros row. unfold drop_reset.
    assert ((length data <? length (data ++ [row]))%nat = true) as ->
      by (apply Nat.ltb_lt; rewrite length_app; simpl; lia).
    now rewrite delete_last.
Qed.

Lemma drop_reset_removes_one_row_witness :
  1 < length [new_row "95110" complete_readings 1;
              new_row "95112" partial_readings 2;
              new_row "95113" complete_readings 3] /\
  drop_reset 1 [new_row "95110" complete_readings 1;
                new_row "95112" partial_readings 2;
                new_row "95113" complete_readings 3] =
    Ok [new_row "95110" complete_readings 1;
        new_row "95113" complete_readings 3].
Proof.
  assert (1 < length [new_row "95110" complete_readings 1;
                      new_row "95112" partial_readings 2;
                      new_row "95113" complete_readings 3])
    as Hi by (simpl; lia).
  split; [exact Hi|].
  destruct (proj1 (drop_reset_removes_one_row _ 1) Hi)
    as (data' & -> & -> & _).
  reflexivity.
Defined.

Lemma at_set_Some i col v (data : list (gmap string cell)) row :
  data !! i = Some row ->
  at_set i col v data = Some (<[i := <[col := v]> row]> data).
Proof. intros H. unfold at_set. now rewrite H. Qed.

Lemma at_set_insert i col v (data : list (gmap string cell)) row :
  i < length data ->
  at_set i col v (<[i := row]> data) = Some (<[i := <[col := v]> row]> data).
Proof.
  intros Hlt. unfold at_set.
  rewrite list_lookup_insert_eq by exact Hlt.
  now rewrite list_insert_insert_eq.
Qed.

Lemma save_changes_Some i e (data : list (gmap string cell)) row :
  data !! i = Some row ->
  save_changes i e data = Some (<[i := edited_row e row]> data).
Proof.
  intros Hrow. pose proof (lookup_lt_Some _ _ _ Hrow) as Hlt.
  unfold save_changes, edited_row.
  rewrite (at_set_Some _ _ _ _ _ Hrow). cbn [mbind option_bind].
  repeat (rewrite at_set_insert by exact Hlt; cbn [mbind option_bind]).
  reflexivity.
Qed.

(** X10. The Save Changes button of an entry of the frame overwrites the
    seven columns of that row with the edited values and nothing else:
    the frame keeps its length, every other row is the row it was, and
    any further column of the edited row keeps its cell. *)
Theorem save_changes_edits_one_row
    (i : nat) (e : edited_values) (data : list (gmap string cell))
    (row : gmap string cell) :
  data !! i = Some row ->
  exists data',
    save_changes i e data = Some data' /\
    length data' = length data /\
    (forall j, j <> i -> data' !! j = data !! j) /\
    data' !! i = Some (edited_row e row) /\
    edited_row e row !! "Zipcode" = Some (Text (edited_zipcode e)) /\
    edited_row e row !! "Date" = Some (Time (edited_date e)) /\
    edited_row e row !! "pH" = Some (Num (edited_ph e)) /\
    edited_row e row !! "Chlorine (mg/L)" = Some (Num (edited_chlorine e)) /\
    edited_row e row !! "Hardness (mg/L as CaCO3)"
      = Some (Num (edited_hardness e)) /\
    edited_row e row !! "Nitrates (mg/L)" = Some (Num (edited_nitrates e)) /\
    edited_row e row !! "Lead (µg/L)" = Some (Num (edited_lead e)) /\
    (forall col, col ∉ columns -> edited_row e row !! col = row !! col).
Proof.
  intros Hrow. exists (<[i := edited_row e row]> data).
  split; [now apply save_changes_Some|].
  split; [apply length_insert|].
  split; [intros j Hj; now apply list_lookup_insert_ne|].
  split; [apply list_lookup_insert_eq; now apply lookup_lt_Some in Hrow|].
  unfold edited_row.
  repeat (split; [now simplify_map_eq|]).
  intros col Hcol. unfold columns in Hcol.
  repeat (apply not_elem_of_cons in Hcol as [? Hcol]).
  now rewrite !lookup_insert_ne by congruence.
Qed.

Lemma save_changes_edits_one_row_witness :
  [new_row "95110" complete_readings 1; new_row "95113" partial_readings 2]
    !! 1 = Some (new_row "95113" partial_readings 2) /\
  exists data',
    save_changes 1 some_edit
      [new_row "95110" complete_readings 1;
       new_row "95113" partial_readings 2] = Some data' /\
    data' !! 0 = Some (new_row "95110" complete_readings 1) /\
    data' !! 1 =
      Some (edited_row some_edit (new_row "95113" partial_readings 2)).
Proof.
  split; [reflexivity|].
  destruct (save_changes_edits_one_row 1 some_edit
              [new_row "95110" complete_readings 1;
               new_row "95113" partial_readings 2]
              (new_row "95113" partial_readings 2) eq_refl)
    as (data' & Hs & _ & Hother & Hi & _).
  exists data'. split; [exact Hs|]. split; [|exact Hi].
  now rewrite Hother.
Defined.

End InputPageFacts.

(** ** More on the home page *)

Module HomePageFacts.

Import HomePage ComplianceFacts.

Lemma unique_loop_elem {A} `{EqDecision A} (l : list A) : forall seen x,
  x ∈ unique_loop seen l <-> x ∈ l /\ x ∉ seen.
Proof.
  induction l as [|y l IH]; intros seen x; simpl.
  - split; [intros H; inversion H | intros [H _]; inversion H].
  - destruct (decide (y ∈ seen)) as [Hy|Hy].
    + rewrite IH, elem_of_cons. split; [tauto|].
      intros [[->|H] Hx]; tauto.
    + rewrite !elem_of_cons, IH, not_elem_of_cons. split.
      * intros [->|[H1 [H2 H3]]]; tauto.
      * intros [[->|H] Hx]; [tauto|].
        destruct (decide (x = y)); tauto.
Qed.

Lemma unique_elem {A} `{EqDecision A} (l : list A) x : x ∈ unique l <-> x ∈ l.
Proof.
  unfold unique. rewrite unique_loop_elem. split; [tauto|].
  intros H. split; [exact H|]. intros Hnil. inversion Hnil.
Qed.

Lemma zipcode_data_elem data z r :
  r ∈ zipcode_data data z <-> r ∈ data /\ Zipcode r = z.
Proof.
  unfold zipcode_data. rewrite !list_elem_of_In, filter_In.
  now rewrite bool_decide_eq_true.
Qed.

Lemma selected_data_elem zd d r :
  r ∈ selected_data zd d <-> r ∈ zd /\ date_of (Date r) = d.
Proof.
  unfold selected_data. rewrite !list_elem_of_In, filter_In.
  now rewrite bool_decide_eq_true.
Qed.

Lemma iloc_option {A} (rows : list A) k :
  k ∈ map Z.of_nat (seq 1 (length rows)) ->
  exists r, iloc rows (k - 1) = Some r /\ r ∈ rows.
Proof.
  intros Hk. apply list_elem_of_fmap in Hk as (n & -> & Hn).
  apply list_elem_of_In, in_seq in Hn.
  destruct (lookup_lt_is_Some_2 rows (n - 1)) as [r Hr]; [lia|].
  exists r. split; [|now apply list_elem_of_lookup_2 in Hr].
  unfold iloc.
  assert ((0 <=? Z.of_nat n - 1)%Z = true) as -> by (apply Z.leb_le; lia).
  now replace (Z.to_nat (Z.of_nat n - 1)) with (n - 1) by lia.
Qed.

Lemma unique_nonempty {A} `{EqDecision A} (l : list A) :
  l <> [] -> unique l <> [].
Proof.
  destruct l as [|x l]; [congruence|]. intros _ Hnil.
  assert (x ∈ unique (x :: l)) as Hx
    by (apply unique_elem, list_elem_of_here).
  rewrite Hnil in Hx. inversion Hx.
Qed.





End HomePageFacts.

(** ** More on the dashboard *)

Module DashboardMoreFacts.

Import GeoResolver HomePage Dashboard.

Lemma date_of_midnight t day :
  date_of t = day -> (t <= to_datetime day)%Z -> t = to_datetime day.
Proof.
  unfold date_of, to_datetime. intros <- Hle.
  pose proof (Z.mul_div_le t 86400). lia.
Qed.

(** X13. The dashboard's filter.  With no zipcode or no date selected it
    keeps all the data.  With zipcodes and a start and an end date it
    keeps exactly the rows of a selected zipcode whose timestamp lies
    between the midnight of the start date and the midnight of the end
    date, so a row recorded on the end date after midnight is left out.
    With zipcodes and a start date only it raises [IndexError]. *)
Theorem filter_data_selection
    (data : list entry) (selected_zipcodes : list string) :
  (forall range,
     selected_zipcodes = [] \/ range = [] ->
     filter_data data selected_zipcodes range = filtered data) /\
  (forall first,
     selected_zipcodes <> [] ->
     filter_data data selected_zipcodes [first] = index_error) /\
  (forall first last,
     selected_zipcodes <> [] ->
     exists rows,
       filter_data data selected_zipcodes [first; last] = filtered rows /\
       (forall r,
          In r rows <->
          In r data /\ Zipcode r ∈ selected_zipcodes /\
          (to_datetime first <= Date r <= to_datetime last)%Z) /\
       (forall r,
          date_of (Date r) = last -> Date r <> to_datetime last ->
          ~ In r rows)).
Proof.
  split; [|split].
  - intros range [-> | ->]; [reflexivity|]. now destruct selected_zipcodes.
  - intros first Hz. destruct selected_zipcodes; [congruence | reflexivity].
  - intros first last Hz.
    exists (List.filter
              (fun r => bool_decide (Zipcode r ∈ selected_zipcodes)
                        && (to_datetime first <=? Date r)%Z
                        && (Date r <=? to_datetime last)%Z) data).
    split; [destruct selected_zipcodes; [congruence | reflexivity]|].
    assert (Hrows : forall r,
      In r (List.filter
              (fun r => bool_decide (Zipcode r ∈ selected_zipcodes)
                        && (to_datetime first <=? Date r)%Z
                        && (Date r <=? to_datetime last)%Z) data) <->
      In r data /\ Zipcode r ∈ selected_zipcodes /\
      (to_datetime first <= Date r <= to_datetime last)%Z).
    { intros r. rewrite filter_In, !andb_true_iff, bool_decide_eq_true,
        Z.leb_le, Z.leb_le. tauto. }
    split; [exact Hrows|].
    intros r Hday Hnot Hin. apply Hrows in Hin as (_ & _ & _ & Hle).
    apply Hnot. now apply date_of_midnight.
Qed.

Lemma filter_data_selection_witness :
  ["95110"] <> [] /\
  filter_data day_entries ["95110"] [20000; 20000]%Z =
    filtered [ {| Zipcode := "95110"; Date := 20000 * 86400;
                  reading := fun _ => Finite 1 |} ] /\
  filter_data day_entries ["95110"] [20000%Z] = index_error.
Proof.
  assert (["95110"] <> []) as Hz by discriminate.
  split; [exact Hz|]. split; [vm_compute; reflexivity|].
  exact (proj1 (proj2 (filter_data_selection day_entries ["95110"]))
           20000%Z Hz).
Defined.

Lemma dict_get_elem {A} key (table : list (string * A)) v :
  NoDup (map fst table) -> (key, v) ∈ table -> dict_get key table = Some v.
Proof.
  induction table as [|[k w] table IH]; intros Hnd Hin; simpl.
  - inversion Hin.
  - simpl in Hnd. apply NoDup_cons in Hnd as [Hk Hnd].
    apply elem_of_cons in Hin as [[= -> ->]|Hin].
    + now rewrite String.eqb_refl.
    + destruct (String.eqb_spec k key) as [->|Hne]; [|now apply IH].
      destruct Hk. apply list_elem_of_fmap. now exists (key, v).
Qed.

Lemma dict_get_Some {A} key (table : list (string * A)) v :
  dict_get key table = Some v -> (key, v) ∈ table.
Proof.
  induction table as [|[k w] table IH]; simpl; [discriminate|].
  destruct (String.eqb_spec k key) as [->|Hne].
  - intros [= ->]. apply list_elem_of_here.
  - intros H. now apply list_elem_of_further, IH.
Qed.

Lemma add_markers_elem selected m :
  m ∈ add_markers selected <->
  exists zipcode c,
    zipcode ∈ selected /\ (zipcode, c) ∈ Dashboard.known_zipcode_coords /\
    m = {| location := c; popup := "Zipcode: " +:+ zipcode |}.
Proof.
  assert (Hnd : NoDup (map fst Dashboard.known_zipcode_coords))
    by compute_done.
  induction selected as [|z rest IH]; cbn [add_markers].
  - split; [intros H; inversion H|]. intros (zc & c & H & _). inversion H.
  - destruct (dict_get z Dashboard.known_zipcode_coords) as [[lat lon]|] eqn:E.
    + rewrite elem_of_cons, IH. split.
      * intros [->|(zc & c & Hin & Hc & ->)].
        -- exists z, (lat, lon). split; [apply list_elem_of_here|].
           split; [now apply dict_get_Some | reflexivity].
        -- exists zc, c. split; [now apply list_elem_of_further | easy].
      * intros (zc & c & Hin & Hc & ->).
        apply elem_of_cons in Hin as [->|Hin]; [|right; eauto].
        left. rewrite (dict_get_elem _ _ _ Hnd Hc) in E. now injection E as ->.
    + rewrite IH. split.
      * intros (zc & c & Hin & Hc & ->).
        exists zc, c. split; [now apply list_elem_of_further | easy].
      * intros (zc & c & Hin & Hc & ->).
        apply elem_of_cons in Hin as [->|Hin]; [|eauto].
        rewrite (dict_get_elem _ _ _ Hnd Hc) in E. discriminate.
Qed.

(** X14. The map of the dashboard.  Its table of centroids is the table
    of the resolver's fallback; the markers are those of the selected
    zipcodes the table knows, a zipcode it does not know getting none; and
    a zone returned by the nearest-zone search, once selected, is marked at
    the very centroid that was nearest to the point. *)
Theorem markers_at_fallback_centroids :
  Dashboard.known_zipcode_coords = GeoResolver.known_zipcode_coords /\
  (forall selected m,
     m ∈ add_markers selected <->
     exists zipcode c,
       zipcode ∈ selected /\ (zipcode, c) ∈ GeoResolver.known_zipcode_coords /\
       m = {| location := c; popup := "Zipcode: " +:+ zipcode |}) /\
  (forall (d : coords -> coords -> Q) lat lon z,
     get_nearest_zipcode d lat lon = Some z ->
     exists c,
       add_markers [z] = [{| location := c; popup := "Zipcode: " +:+ z |}] /\
       forall z' c', (z', c') ∈ GeoResolver.known_zipcode_coords ->
                     (d (lat, lon) c <= d (lat, lon) c')%Q).
Proof.
  split; [reflexivity|]. split; [exact add_markers_elem|].
  intros d lat lon z Hz.
  destruct (GeoFacts.get_nearest_zipcode_in_first d lat lon
              GeoResolver.known_zipcode_coords)
    as (z0 & Hz0 & i & c & Hi & Hle & _); [discriminate|].
  unfold get_nearest_zipcode in Hz. rewrite Hz in Hz0. injection Hz0 as <-.
  exists c. split.
  - assert ((z, c) ∈ Dashboard.known_zipcode_coords) as Hin
      by (apply list_elem_of_lookup; eauto).
    cbn [add_markers].
    rewrite (dict_get_elem z Dashboard.known_zipcode_coords c);
      [now destruct c | compute_done | exact Hin].
  - intros z' c' Hin. apply list_elem_of_lookup in Hin as [j Hj]. eauto.
Qed.

Lemma markers_at_fallback_centroids_witness :
  get_nearest_zipcode flat_distance2 37.35 (-121.90) = Some "95110" /\
  add_markers ["95110"; "94000"] =
    [{| location := (37.3422, -121.8996)%Q; popup := "Zipcode: 95110" |}].
Proof.
  assert (get_nearest_zipcode flat_distance2 37.35 (-121.90) = Some "95110")
    as Hz by (vm_compute; reflexivity).
  split; [exact Hz|].
  destruct (proj2 (proj2 markers_at_fallback_centroids)
              flat_distance2 37.35%Q (-121.90)%Q "95110" Hz) as (c & _ & _).
  vm_compute. reflexivity.
Defined.

End DashboardMoreFacts.

(** ** The image flow up to the data file *)

Module ImageFlowFacts.

Import Re ParserSpec ReadingParser ParserFacts ManualInput InputFacts.
Import ExtractionFacts.

(** X15. From the text of an image to the data file.  When the text
    yields the empty mapping, the submission is rejected and the file
    stays as it was.  When a labelled number can be read for at least one
    parameter and a zipcode is given, the parsed mapping is accepted as it
    is: the new row holds the parsed value of every parameter found and
    no cell for a parameter that was not found. *)
Theorem parsed_readings_reach_the_file
    (text zipcode : string) (readings : gmap string Q) (now : Z)
    (file : data_file) :
  parse_extracted_text text = Ok readings ->
  (readings = ∅ ->
   submit_data zipcode readings now file =
     (file,
      st_error "Please ensure all data fields are filled out, including a valid zipcode.")) /\
  (zipcode <> "" ->
   (exists key label pre suf tok,
      (key, label) ∈ parameters /\
      list_ascii_of_string text = pre ++ suf /\
      labelled_number_at label suf tok) ->
   submit_data zipcode readings now file =
     (Some (load_data file ++ [new_row zipcode readings now]),
      st_success "Data submitted successfully.") /\
   forall key, key ∈ required ->
     new_row zipcode readings now !! key = Num <$> readings !! key).
Proof.
  intros Hrun. split.
  - intros ->. apply submit_data_rejects. now right.
  - intros Hz (key & label & pre & suf & tok & Hkey & Ht & Htok).
    assert (is_Some (readings !! key)) as [v Hv]
      by (apply (parse_entry_found text readings key label Hkey Hrun); eauto).
    assert (readings <> ∅) as Hr
      by (intros ->; rewrite lookup_empty in Hv; discriminate).
    split; [now apply submit_data_accepts|].
    destruct (new_row_lookup zipcode readings now) as (_ & _ & H).
    intros k Hk. apply H; intros ->; revert Hk; compute_done.
Qed.

Lemma parsed_readings_reach_the_file_witness :
  parse_extracted_text "pH: 7.2 Chlorine 1.5mg/L" = Ok partial_readings /\
  "95110" <> "" /\
  submit_data "95110" partial_readings 5 None =
    (Some [new_row "95110" partial_readings 5],
     st_success "Data submitted successfully.").
Proof.
  assert (parse_extracted_text "pH: 7.2 Chlorine 1.5mg/L" = Ok partial_readings)
    as Hrun by (vm_compute; reflexivity).
  assert ("95110" <> "") as Hz by discriminate.
  split; [exact Hrun|]. split; [exact Hz|].
  refine (proj1 (proj2 (parsed_readings_reach_the_file
                          "pH: 7.2 Chlorine 1.5mg/L" "95110"
                          partial_readings 5 None Hrun) Hz _)).
  exists "pH", "pH", [], (list_ascii_of_string "pH: 7.2 Chlorine 1.5mg/L"),
    (list_ascii_of_string "7.2").
  split; [apply list_elem_of_here|]. split; [reflexivity|].
  assert (match_here (label_number "pH")
            (list_ascii_of_string "pH: 7.2 Chlorine 1.5mg/L") =
          Some [list_ascii_of_string "7.2"]) as Hm
    by (vm_compute; reflexivity).
  apply ReFacts.match_label_number in Hm as (tok & [= <-] & Htok).
  exact Htok.
Defined.

End ImageFlowFacts.
